(** * HF_downloader.py: a shallow embedding and its verified properties

    The script downloads a Hugging Face model repository into a local
    directory.  It first tries [snapshot_download]; when that raises it
    falls back (unless [--no-insecure] is given) to a [git clone] with
    TLS verification disabled, then checks that a minimal file set is
    present and prints a bounded listing of the destination.

    The embedding follows the script function by function:
    - the filesystem is a tree of [node]s, addressed by absolute paths;
    - the two external collaborators ([huggingface_hub.snapshot_download]
      and the processes started by [subprocess.run]) are section
      variables acting on the whole [world], so every theorem holds for
      every behaviour of the hub, the network and the installed tools;
    - Python's exceptions, [sys.exit] and [print] are the effects of a
      small monad [M] that threads the [world] and accumulates the
      chronological list of [event]s of the run. *)

From Stdlib Require Import ZArith Lia DecimalString.
From stdpp Require Import base strings list gmap.

Local Open Scope Z_scope.
Local Open Scope string_scope.
Local Open Scope list_scope.

(** ** Filesystem *)

(** An absolute, resolved path is the list of its components below the
    filesystem root ([Path(...).expanduser().resolve()] on line 117 is
    performed by the caller of [main]). *)
Abbreviation path := (list string).

(** Directory entries keep the order in which [os.scandir] lists them; a
    directory lists each name once.  [Dangling] is a symbolic link whose
    target is missing: it is listed by its directory, but [exists()] is
    false on it and [stat()] raises. *)
#[warnings="-register-all"]
Inductive node : Type :=
  | File (st_size : Z)
  | Dangling
  | Dir (entries : list (string * node)).

Fixpoint assoc {A : Type} (name : string) (es : list (string * A)) : option A :=
  match es with
  | [] => None
  | (k, v) :: es' => if String.eqb k name then Some v else assoc name es'
  end.

Fixpoint lookup_path (n : node) (p : path) : option node :=
  match p with
  | [] => Some n
  | c :: p' =>
      match n with
      | Dir es =>
          match assoc c es with
          | Some m => lookup_path m p'
          | None => None
          end
      | _ => None
      end
  end.

(** [Path.exists()]: follows the path; false when a component is absent,
    is not a directory, or is a dangling link. *)
Definition path_exists (fs : node) (p : path) : bool :=
  match lookup_path fs p with
  | Some (File _) | Some (Dir _) => true
  | _ => false
  end.

Definition is_dir (n : node) : bool :=
  match n with Dir _ => true | _ => false end.

Definition dirnames (es : list (string * node)) : list string :=
  map fst (List.filter (fun e => is_dir (snd e)) es).

Definition filenames (es : list (string * node)) : list string :=
  map fst (List.filter (fun e => negb (is_dir (snd e))) es).

(** [os.walk(top)], top-down, links not followed, errors of [scandir]
    ignored: the triple of [top] first, then the walk of each
    sub-directory in listing order. *)
Fixpoint walk_node (top : path) (n : node) : list (path * list string * list string) :=
  match n with
  | Dir es =>
      (top, dirnames es, filenames es) ::
      flat_map (fun e => walk_node (top ++ [fst e]) (snd e)) es
  | _ => []
  end.

Definition os_walk (fs : node) (top : path) : list (path * list string * list string) :=
  match lookup_path fs top with
  | Some n => walk_node top n
  | None => []
  end.

(** The number of non-directory entries in a tree. *)
Fixpoint count_files (n : node) : nat :=
  match n with
  | Dir es =>
      list_sum (map (fun e => ((if is_dir (snd e) then O else 1%nat) + count_files (snd e))%nat) es)
  | _ => O
  end.

Definition delete_entry {A : Type} (name : string) (es : list (string * A)) : list (string * A) :=
  List.filter (fun e => negb (String.eqb (fst e) name)) es.

Definition alter_entry {A : Type} (f : A -> A) (name : string) (es : list (string * A))
  : list (string * A) :=
  map (fun e => if String.eqb (fst e) name then (fst e, f (snd e)) else e) es.

(** Removes the entry at [p] from its parent directory. *)
Fixpoint unlink (p : path) (n : node) : node :=
  match p, n with
  | [], _ => n
  | [name], Dir es => Dir (delete_entry name es)
  | c :: p', Dir es => Dir (alter_entry (unlink p') c es)
  | _, _ => n
  end.

Fixpoint make_dirs (p : path) : node :=
  match p with
  | [] => Dir []
  | c :: p' => Dir [(c, make_dirs p')]
  end.

(** [Path.mkdir(parents=True, exist_ok=True)] on the tree; [None] when it
    raises (a component, or the path itself, exists and is no directory). *)
Fixpoint mkdir_p (p : path) (n : node) : option node :=
  match p with
  | [] => if is_dir n then Some n else None
  | c :: p' =>
      match n with
      | Dir es =>
          match assoc c es with
          | Some m =>
              match mkdir_p p' m with
              | Some m' => Some (Dir (alter_entry (fun _ => m') c es))
              | None => None
              end
          | None => Some (Dir (es ++ [(c, make_dirs p')]))
          end
      | _ => None
      end
  end.

(** [Path.parent]; the parent of the root is the root. *)
Definition parent (p : path) : path := removelast p.

(** [str(path)] of an absolute POSIX path. *)
Definition path_str (p : path) : string :=
  match p with
  | [] => "/"
  | _ => String.concat "" (map (String.append "/") p)
  end.

(** [PurePath.relative_to]: [None] stands for its [ValueError]. *)
Fixpoint relative_to (p base : path) {struct base} : option path :=
  match base with
  | [] => Some p
  | b :: base' =>
      match p with
      | c :: p' => if String.eqb c b then relative_to p' base' else None
      | [] => None
      end
  end.

(** ** Exceptions, output and events *)

(** The exception classes the script distinguishes.  Everything here is a
    subclass of [Exception]; [HubError] stands for whatever
    [snapshot_download] raises (network, authentication, not found). *)
Inductive exception : Type :=
  | CalledProcessError (returncode : Z)
  | FileNotFoundError
  | OSError (detail : string)
  | ValueError
  | HubError (detail : string).

(** What can unwind the stack: [SystemExit] is raised by [sys.exit] and is
    not caught by [except Exception]. *)
Inductive raised : Type :=
  | SystemExit (code : Z)
  | Exception (e : exception).

Inductive outcome (A : Type) : Type :=
  | Returned (a : A)
  | Raised (r : raised).
Arguments Returned {A} a.
Arguments Raised {A} r.

Inductive stream : Type := stdout | stderr.

(** One constructor per [print] call of the script, carrying the values
    interpolated into its text (the source line is given with each). *)
Inductive message : Type :=
  | MsgModulesWarning                          (* line 38 *)
  | MsgSummaryHeader (out_dir : path)          (* line 42 *)
  | MsgFileEntry (rel : path) (size : Z)       (* line 52 *)
  | MsgTruncated (max_files : Z)               (* line 55 *)
  | MsgAttempting (repo_id : string) (out_dir : path)   (* line 75 *)
  | MsgInsecureBanner                          (* line 96 *)
  | MsgAbortNow                                (* line 97 *)
  | MsgCommand (cmd : list string)             (* line 98 *)
  | MsgCloneFailed (e : exception)             (* line 102 *)
  | MsgLfsAttempt                              (* line 108 *)
  | MsgLfsNotInstalled                         (* line 111 *)
  | MsgRemoving (out_dir : path)               (* line 123 *)
  | MsgAlreadyExists (out_dir : path)          (* line 126 *)
  | MsgFinished (out_path : string)            (* line 131 *)
  | MsgSnapshotFailed (e : exception)          (* line 133 *)
  | MsgNoFallback                              (* line 135 *)
  | MsgDefaultFallback                         (* line 138 *)
  | MsgProceeding                              (* line 139 *)
  | MsgCloneAlsoFailed                         (* line 142 *)
  | MsgCloneCompleted                          (* line 144 *)
  | MsgMissingHeader                           (* line 149 *)
  | MsgMissingItem (m : string)                (* line 151 *)
  | MsgMissingHint                             (* line 152 *)
  | MsgAllFound                                (* line 154 *)
  | MsgNextSteps                               (* line 157 *)
  | MsgNextCopy (out_dir : path)               (* line 158 *)
  | MsgNextPermissions                         (* line 159 *)
  | MsgNextChmod (out_dir : path)              (* line 160 *)
  | MsgNextCompose                             (* line 161 *)
  | MsgNextOffline.                            (* line 162 *)

(** How a process started by [subprocess.run] ends: it ran and exited
    with a return code, or the executable (or its working directory)
    was not found and nothing ran. *)
Inductive proc : Type :=
  | Completed (returncode : Z)
  | NotFound.

(** The observable steps of a run, in the order they happen. *)
Inductive event : Type :=
  | Output (s : stream) (m : message)
  | Rmtree (p : path)
  | MkdirParents (p : path)
  | SnapshotDownload (repo_id : string) (local_dir : path) (use_symlinks : bool)
      (token : option string) (r : string + exception)
  | SubprocessRun (cmd : list string) (cwd : option path)
      (env : option (gmap string string)) (r : proc).

(** The namespace returned by [parse_args]; [out] is already resolved. *)
Record Args : Type := {
  repo : string;
  out : path;
  token : option string;
  no_symlinks : bool;
  force : bool;
  no_insecure : bool
}.

(** Python truthiness of an optional string and the [or] of two of them. *)
Definition truthy (o : option string) : bool :=
  match o with
  | Some s => negb (String.eqb s "")
  | None => false
  end.

Definition py_or (a b : option string) : option string :=
  if truthy a then a else b.

(** The status the interpreter exits with on [sys.exit(main())]: the
    value [main] returned, the code of a [SystemExit], or 1 after the
    traceback of an exception nobody caught. *)
Definition exit_status (o : outcome Z) : Z :=
  match o with
  | Returned n => n
  | Raised (SystemExit n) => n
  | Raised (Exception _) => 1
  end.

Section Downloader.

(** Whatever lies outside the local filesystem: the hub, the network, the
    installed tools. *)
Context {Ext : Type}.

Record world : Type := World {
  fs : node;
  ext : Ext
}.

(** [huggingface_hub.snapshot_download(repo_id, local_dir,
    local_dir_use_symlinks, use_auth_token)]: returns the resolved path
    or raises; it may change the world either way. *)
Variable snapshot_download :
  string -> path -> bool -> option string -> world -> (string + exception) * world.

(** The process behind [subprocess.run(cmd, cwd=..., env=...)]. *)
Variable spawn :
  list string -> option path -> option (gmap string string) -> world -> proc * world.

(** [os.environ] *)
Variable environ : gmap string string.

(** ** The effect monad *)

Definition M (A : Type) : Type := world -> outcome A * world * list event.

Definition ret {A} (a : A) : M A := fun w => (Returned a, w, []).

Definition bind {A B} (c : M A) (k : A -> M B) : M B :=
  fun w =>
    match c w with
    | (Returned a, w1, l1) =>
        match k a w1 with
        | (o, w2, l2) => (o, w2, l1 ++ l2)
        end
    | (Raised r, w1, l1) => (Raised r, w1, l1)
    end.

Notation "x <- c ;; k" := (bind c (fun x => k))
  (at level 100, c at next level, right associativity).
Notation "c ;; k" := (bind c (fun _ => k))
  (at level 100, right associativity).

Definition raise {A} (e : exception) : M A :=
  fun w => (Raised (Exception e), w, []).

(** [sys.exit(code)] *)
Definition sys_exit {A} (code : Z) : M A :=
  fun w => (Raised (SystemExit code), w, []).

Definition emit (e : event) : M unit := fun w => (Returned tt, w, [e]).

Definition print (s : stream) (m : message) : M unit := emit (Output s m).

Definition read_fs : M node := fun w => (Returned (fs w), w, []).

(** [try: c  except <class> as e: h e].  [h e = None] when [e] is not an
    instance of the handled class; [SystemExit] is never handled. *)
Definition try_except {A} (c : M A) (h : exception -> option (M A)) : M A :=
  fun w =>
    match c w with
    | (Raised (Exception e), w1, l1) =>
        match h e with
        | Some k =>
            match k w1 with
            | (o, w2, l2) => (o, w2, l1 ++ l2)
            end
        | None => (Raised (Exception e), w1, l1)
        end
    | r => r
    end.

(** ** Filesystem and process operations *)

Definition exists_ (p : path) : M bool :=
  tree <- read_fs ;; ret (path_exists tree p).

(** Size reported for a directory by [stat]; the walk never lists a
    directory among the files of a well-formed tree. *)
Definition dir_st_size : Z := 4096.

(** [path.stat().st_size] *)
Definition stat_size (p : path) : M Z :=
  tree <- read_fs ;;
  match lookup_path tree p with
  | Some (File sz) => ret sz
  | Some (Dir _) => ret dir_st_size
  | _ => raise FileNotFoundError
  end.

(** [shutil.rmtree(p)]: removes the directory tree at [p]; raises when
    [p] is not a directory.  The root itself cannot be removed: its
    content is deleted and the final [rmdir] raises. *)
Definition rmtree (p : path) : M unit :=
  emit (Rmtree p) ;;
  fun w =>
    match lookup_path (fs w) p with
    | Some (Dir _) =>
        match p with
        | [] => (Raised (Exception (OSError "rmdir: device or resource busy")),
                 World (Dir []) (ext w), [])
        | _ => (Returned tt, World (unlink p (fs w)) (ext w), [])
        end
    | Some _ => (Raised (Exception (OSError "not a directory")), w, [])
    | None => (Raised (Exception FileNotFoundError), w, [])
    end.

(** [p.mkdir(parents=True, exist_ok=True)] *)
Definition mkdir_parents (p : path) : M unit :=
  emit (MkdirParents p) ;;
  fun w =>
    match mkdir_p p (fs w) with
    | Some tree => (Returned tt, World tree (ext w), [])
    | None => (Raised (Exception (OSError "file exists")), w, [])
    end.

(** [subprocess.run(cmd, check=..., cwd=..., env=...)] *)
Definition subprocess_run (cmd : list string) (check : bool) (cwd : option path)
    (env : option (gmap string string)) : M Z :=
  fun w =>
    match spawn cmd cwd env w with
    | (Completed rc, w1) =>
        if check && negb (Z.eqb rc 0)
        then (Raised (Exception (CalledProcessError rc)), w1, [SubprocessRun cmd cwd env (Completed rc)])
        else (Returned rc, w1, [SubprocessRun cmd cwd env (Completed rc)])
    | (NotFound, w1) =>
        (Raised (Exception FileNotFoundError), w1, [SubprocessRun cmd cwd env NotFound])
    end.

(** ** The script *)

Definition any_exists (out_dir : path) (names : list string) : M bool :=
  tree <- read_fs ;; ret (existsb (fun f => path_exists tree (out_dir ++ [f])) names).

Definition weights_label : string := "model.safetensors or pytorch_model.bin".
Definition tokenizer_label : string :=
  "tokenizer.json or tokenizer_config.json or sentencepiece.bpe.model or vocab.txt".
Definition tokenizer_names : list string :=
  ["tokenizer.json"; "tokenizer_config.json"; "sentencepiece.bpe.model"; "vocab.txt"].

(** Lines 29-39. *)
Definition check_required_files (out_dir : path) : M (list string) :=
  let missing := [] in
  config <- exists_ (out_dir ++ ["config.json"]) ;;
  let missing := if negb config then missing ++ ["config.json"] else missing in
  safetensors <- exists_ (out_dir ++ ["model.safetensors"]) ;;
  pytorch <- exists_ (out_dir ++ ["pytorch_model.bin"]) ;;
  let missing := if negb (safetensors || pytorch) then missing ++ [weights_label] else missing in
  tokenizer <- any_exists out_dir tokenizer_names ;;
  let missing := if negb tokenizer then missing ++ [tokenizer_label] else missing in
  modules <- exists_ (out_dir ++ ["modules.json"]) ;;
  (if negb modules then print stdout MsgModulesWarning else ret tt) ;;
  ret missing.

(** The body of the inner loop of [print_summary] (lines 45-56) over the
    remaining [files] of one directory.  [None] is the [return] of line
    56, [Some count] the counter when the loop runs to its end. *)
Fixpoint summary_files (out_dir root : path) (max_files : Z) (files : list string)
    (count : Z) : M (option Z) :=
  match files with
  | [] => ret (Some count)
  | name :: files' =>
      let p := root ++ [name] in
      rel <- match relative_to p out_dir with
             | Some rel => ret rel
             | None => raise ValueError
             end ;;
      size <- try_except (stat_size p) (fun _ => Some (ret 0)) ;;
      print stdout (MsgFileEntry rel size) ;;
      let count := count + 1 in
      if (max_files <=? count)%Z
      then print stdout (MsgTruncated max_files) ;; ret None
      else summary_files out_dir root max_files files' count
  end.

(** The outer loop (line 44) over the triples of [os.walk]. *)
Fixpoint summary_walk (out_dir : path) (max_files : Z)
    (triples : list (path * list string * list string)) (count : Z) : M unit :=
  match triples with
  | [] => ret tt
  | (root, _, files) :: triples' =>
      r <- summary_files out_dir root max_files files count ;;
      match r with
      | None => ret tt
      | Some count' => summary_walk out_dir max_files triples' count'
      end
  end.

(** Lines 41-56. *)
Definition print_summary (out_dir : path) (max_files : Z) : M unit :=
  print stdout (MsgSummaryHeader out_dir) ;;
  let count := 0 in
  tree <- read_fs ;;
  summary_walk out_dir max_files (os_walk tree out_dir) count.

(** The default of the [max_files] parameter (line 41). *)
Definition default_max_files : Z := 40.

(** Lines 74-83. *)
Definition run_snapshot_download (repo_id : string) (out_dir : path)
    (token : option string) (use_symlinks : bool) : M string :=
  print stdout (MsgAttempting repo_id out_dir) ;;
  fun w =>
    match snapshot_download repo_id out_dir use_symlinks token w with
    | (inl out_path, w1) =>
        (Returned out_path, w1,
         [SnapshotDownload repo_id out_dir use_symlinks token (inl out_path)])
    | (inr e, w1) =>
        (Raised (Exception e), w1,
         [SnapshotDownload repo_id out_dir use_symlinks token (inr e)])
    end.

Definition clone_cmd (repo_id : string) (out_dir : path) : list string :=
  ["git"; "-c"; "http.sslVerify=false"; "clone";
   String.append "https://huggingface.co/" repo_id; path_str out_dir].

Definition clone_env : gmap string string :=
  <["GIT_SSL_NO_VERIFY" := "true"]> environ.

(** Lines 85-112. *)
Definition run_insecure_git_clone (repo_id : string) (out_dir : path) : M bool :=
  let env := clone_env in
  let out_dir_parent := parent out_dir in
  mkdir_parents out_dir_parent ;;
  let cmd := clone_cmd repo_id out_dir in
  print stderr MsgInsecureBanner ;;
  print stderr MsgAbortNow ;;
  print stderr (MsgCommand cmd) ;;
  cloned <- try_except
              (subprocess_run cmd true None (Some env) ;; ret true)
              (fun e => match e with
                        | CalledProcessError _ =>
                            Some (print stderr (MsgCloneFailed e) ;; ret false)
                        | _ => None
                        end) ;;
  if negb cloned then ret false
  else
    try_except
      (subprocess_run ["git"; "lfs"; "install"] false (Some out_dir) None ;;
       print stdout MsgLfsAttempt ;;
       subprocess_run ["git"; "lfs"; "pull"] false (Some out_dir) None ;;
       ret tt)
      (fun e => match e with
                | FileNotFoundError => Some (print stderr MsgLfsNotInstalled)
                | _ => None
                end) ;;
    ret true.

(** Lines 121-126: destination preparation. *)
Definition prepare_destination (args : Args) : M unit :=
  present <- exists_ (out args) ;;
  if present then
    if force args then
      print stdout (MsgRemoving (out args)) ;;
      rmtree (out args)
    else print stdout (MsgAlreadyExists (out args))
  else ret tt.

(** Lines 128-144: primary fetch and, when it raises, the fallback. *)
Definition fetch (args : Args) (token : option string) (use_symlinks : bool) : M unit :=
  try_except
    (out_path <- run_snapshot_download (repo args) (out args) token use_symlinks ;;
     print stdout (MsgFinished out_path))
    (fun e => Some (
       print stderr (MsgSnapshotFailed e) ;;
       (if no_insecure args then
          print stderr MsgNoFallback ;;
          sys_exit 2
        else ret tt) ;;
       print stderr MsgDefaultFallback ;;
       print stderr MsgProceeding ;;
       success <- run_insecure_git_clone (repo args) (out args) ;;
       (if negb success then
          print stderr MsgCloneAlsoFailed ;;
          sys_exit 3
        else ret tt) ;;
       print stdout MsgCloneCompleted)).

(** Lines 146-163: checks, listing and guidance. *)
Definition report (out_dir : path) : M Z :=
  missing <- check_required_files out_dir ;;
  (match missing with
   | _ :: _ =>
       print stdout MsgMissingHeader ;;
       fold_right (fun m k => print stdout (MsgMissingItem m) ;; k) (ret tt) missing ;;
       print stderr MsgMissingHint
   | [] => print stdout MsgAllFound
   end) ;;
  print_summary out_dir default_max_files ;;
  print stdout MsgNextSteps ;;
  print stdout (MsgNextCopy out_dir) ;;
  print stdout MsgNextPermissions ;;
  print stdout (MsgNextChmod out_dir) ;;
  print stdout MsgNextCompose ;;
  print stdout MsgNextOffline ;;
  ret 0.

(** Lines 114-163. *)
Definition main (args : Args) : M Z :=
  let token :=
    py_or (py_or (token args) (environ !! "HF_TOKEN")) (environ !! "HUGGINGFACE_TOKEN") in
  let use_symlinks := negb (no_symlinks args) in
  prepare_destination args ;;
  fetch args token use_symlinks ;;
  report (out args).

End Downloader.

(** ** Specification-side definitions *)

(** The required file set in the words of the specification: each
    requirement is a label and the set of file names, any of which
    satisfies it.  The modules file is not among them. *)
Definition required_file_set : list (string * list string) :=
  [("config.json", ["config.json"]);
   ("model.safetensors or pytorch_model.bin", ["model.safetensors"; "pytorch_model.bin"]);
   ("tokenizer.json or tokenizer_config.json or sentencepiece.bpe.model or vocab.txt",
    ["tokenizer.json"; "tokenizer_config.json"; "sentencepiece.bpe.model"; "vocab.txt"])].

Definition satisfied (tree : node) (out_dir : path) (names : list string) : bool :=
  existsb (fun f => path_exists tree (out_dir ++ [f])) names.

(** The labels of the requirements no file of the destination root meets. *)
Definition unmet_labels (tree : node) (out_dir : path) : list string :=
  map fst (List.filter (fun r => negb (satisfied tree out_dir (snd r))) required_file_set).

Definition has_config (tree : node) (out_dir : path) : bool :=
  path_exists tree (out_dir ++ ["config.json"]).

Definition has_weights (tree : node) (out_dir : path) : bool :=
  path_exists tree (out_dir ++ ["model.safetensors"])
  || path_exists tree (out_dir ++ ["pytorch_model.bin"]).

Definition has_tokenizer (tree : node) (out_dir : path) : bool :=
  path_exists tree (out_dir ++ ["tokenizer.json"])
  || path_exists tree (out_dir ++ ["tokenizer_config.json"])
  || path_exists tree (out_dir ++ ["sentencepiece.bpe.model"])
  || path_exists tree (out_dir ++ ["vocab.txt"]).

Definition has_modules (tree : node) (out_dir : path) : bool :=
  path_exists tree (out_dir ++ ["modules.json"]).

(** The files of the destination tree in the order the walk meets them,
    as absolute paths. *)
Definition listed (triples : list (path * list string * list string)) : list path :=
  flat_map (fun t => map (fun name => fst (fst t) ++ [name]) (snd t)) triples.

Definition listing (tree : node) (out_dir : path) : list path :=
  listed (os_walk tree out_dir).

(** The number of files in the tree below [out_dir]. *)
Definition files_below (tree : node) (out_dir : path) : nat :=
  match lookup_path tree out_dir with
  | Some n => count_files n
  | None => O
  end.

(** The size [print_summary] shows for a listed path. *)
Definition shown_size (tree : node) (p : path) : Z :=
  match lookup_path tree p with
  | Some (File sz) => sz
  | Some (Dir _) => dir_st_size
  | _ => 0
  end.

Definition entry_line (tree : node) (out_dir p : path) : event :=
  Output stdout (MsgFileEntry (drop (length out_dir) p) (shown_size tree p)).

Definition is_entry (e : event) : bool :=
  match e with
  | Output stdout (MsgFileEntry _ _) => true
  | _ => false
  end.

(** How many files the loop of [print_summary] prints before it stops,
    when it has counted [count] so far. *)
Definition budget (max_files count : Z) : nat :=
  Z.to_nat (Z.max 1 (max_files - count)).

(** The lines of [main] after the completeness check (lines 148-154). *)
Definition verdict_lines (missing : list string) : list event :=
  match missing with
  | [] => [Output stdout MsgAllFound]
  | _ :: _ =>
      Output stdout MsgMissingHeader ::
      map (fun m => Output stdout (MsgMissingItem m)) missing ++
      [Output stderr MsgMissingHint]
  end.

Definition modules_lines (tree : node) (out_dir : path) : list event :=
  if has_modules tree out_dir then [] else [Output stdout MsgModulesWarning].

Definition summary_lines (tree : node) (out_dir : path) (max_files : Z) : list event :=
  Output stdout (MsgSummaryHeader out_dir) ::
  (if (length (listing tree out_dir) <? budget max_files 0)%nat
   then map (entry_line tree out_dir) (listing tree out_dir)
   else map (entry_line tree out_dir) (firstn (budget max_files 0) (listing tree out_dir))
        ++ [Output stdout (MsgTruncated max_files)]).

Definition guidance_lines (out_dir : path) : list event :=
  [Output stdout MsgNextSteps; Output stdout (MsgNextCopy out_dir);
   Output stdout MsgNextPermissions; Output stdout (MsgNextChmod out_dir);
   Output stdout MsgNextCompose; Output stdout MsgNextOffline].

(** Everything [main] prints from line 146 on, for a destination tree. *)
Definition report_log (tree : node) (out_dir : path) : list event :=
  modules_lines tree out_dir ++
  verdict_lines (unmet_labels tree out_dir) ++
  summary_lines tree out_dir default_max_files ++
  guidance_lines out_dir.

(** ** Reading the events of a run *)

Definition is_print (e : event) : bool :=
  match e with Output _ _ => true | _ => false end.

Definition is_snapshot_success (e : event) : bool :=
  match e with SnapshotDownload _ _ _ _ (inl _) => true | _ => false end.

Definition is_snapshot_failure (e : event) : bool :=
  match e with SnapshotDownload _ _ _ _ (inr _) => true | _ => false end.

(** The command line of the TLS-less clone: [git -c http.sslVerify=false
    clone ...]. *)
Definition is_clone_cmd (cmd : list string) : bool :=
  match cmd with
  | git :: c :: opt :: sub :: _ =>
      String.eqb git "git" && String.eqb c "-c"
      && String.eqb opt "http.sslVerify=false" && String.eqb sub "clone"
  | _ => false
  end.

Definition is_clone_run (e : event) : bool :=
  match e with SubprocessRun cmd _ _ _ => is_clone_cmd cmd | _ => false end.

Definition is_clone_failure (e : event) : bool :=
  match e with
  | SubprocessRun cmd _ _ (Completed rc) => is_clone_cmd cmd && negb (Z.eqb rc 0)
  | _ => false
  end.

Definition is_clone_success (e : event) : bool :=
  match e with
  | SubprocessRun cmd _ _ (Completed rc) => is_clone_cmd cmd && Z.eqb rc 0
  | _ => false
  end.

(** The clone could not be started at all. *)
Definition is_clone_not_started (e : event) : bool :=
  match e with
  | SubprocessRun cmd _ _ NotFound => is_clone_cmd cmd
  | _ => false
  end.

(** A step only [run_insecure_git_clone] performs: its [mkdir], its
    warning banner, or any process it starts. *)
Definition is_fallback_step (e : event) : bool :=
  match e with
  | MkdirParents _ => true
  | SubprocessRun _ _ _ _ => true
  | Output _ MsgInsecureBanner => true
  | _ => false
  end.

(** A line that is not the banner of the fallback. *)
Definition is_plain_print (e : event) : bool :=
  match e with
  | Output _ MsgInsecureBanner => false
  | Output _ _ => true
  | _ => false
  end.

(** Primary Fetch returned / raised during the run. *)
Definition primary_succeeded (log : list event) : bool := existsb is_snapshot_success log.
Definition primary_failed (log : list event) : bool := existsb is_snapshot_failure log.

(** The insecure fallback was entered / its clone ran and exited with a
    non-zero status / with status zero. *)
Definition fallback_invoked (log : list event) : bool := existsb is_fallback_step log.
Definition clone_failed (log : list event) : bool := existsb is_clone_failure log.
Definition clone_succeeded (log : list event) : bool := existsb is_clone_success log.
Definition clone_not_started (log : list event) : bool := existsb is_clone_not_started log.

(** The token [main] passes on (line 118). *)
Definition effective_token (environ : gmap string string) (args : Args) : option string :=
  py_or (py_or (token args) (environ !! "HF_TOKEN")) (environ !! "HUGGINGFACE_TOKEN").

(** The world as Destination Preparation leaves it when it does not
    raise: the destination removed under [--force], untouched otherwise. *)
Definition prepared {Ext : Type} (args : Args) (w : world (Ext:=Ext)) : world (Ext:=Ext) :=
  if path_exists (fs w) (out args) && force args
  then World (unlink (out args) (fs w)) (ext w)
  else w.

(** The run of [main] from line 128 on: the fetch, then the report. *)
Definition after_preparation {Ext : Type}
    (snapshot_download :
       string -> path -> bool -> option string -> world (Ext:=Ext) ->
       (string + exception) * world (Ext:=Ext))
    (spawn :
       list string -> option path -> option (gmap string string) -> world (Ext:=Ext) ->
       proc * world (Ext:=Ext))
    (environ : gmap string string) (args : Args) : M (Ext:=Ext) Z :=
  bind (fetch snapshot_download spawn environ args
          (effective_token environ args) (negb (no_symlinks args)))
       (fun _ => report (out args)).

(** ** Concrete machines, used to run the model *)

Module Fixture.

Definition dest : path := ["srv"; "models"; "nomic"].

Definition disk_with (m : list (string * node)) : node :=
  Dir [("srv", Dir [("models", Dir m)])].

(** A destination holding a configuration and weights only. *)
Definition partial_model : node :=
  Dir [("config.json", File 1024); ("model.safetensors", File 1900544)].

(** A complete destination, with and without the modules file. *)
Definition full_model : node :=
  Dir [("config.json", File 1024); ("model.safetensors", File 1900544);
       ("tokenizer.json", File 70000); ("modules.json", File 229)].

Definition model_without_modules : node :=
  Dir [("config.json", File 1024); ("model.safetensors", File 1900544);
       ("tokenizer.json", File 70000)].

Definition machine : Type := world (Ext:=unit).

Definition fresh : machine := World (disk_with []) tt.
Definition populated : machine := World (disk_with [("nomic", partial_model)]) tt.
Definition complete : machine := World (disk_with [("nomic", full_model)]) tt.
Definition complete_bare : machine := World (disk_with [("nomic", model_without_modules)]) tt.

(** A directory of [n] files named shard-0, shard-1, ... *)
Definition shard (i : nat) : string * node :=
  (String.append "shard-" (NilZero.string_of_uint (Nat.to_uint i)), File (Z.of_nat i)).

Definition shards (n : nat) : machine :=
  World (disk_with [("nomic", Dir (map shard (seq 0 n)))]) tt.

(** The hub answers and fills the destination / the hub is unreachable
    and nothing is written. *)
Definition hub_up (repo_id : string) (local_dir : path) (use_symlinks : bool)
    (token : option string) (w : machine) : (string + exception) * machine :=
  (inl (path_str local_dir), complete).

Definition hub_down (repo_id : string) (local_dir : path) (use_symlinks : bool)
    (token : option string) (w : machine) : (string + exception) * machine :=
  (inr (HubError "connection refused"), w).

(** [git] exits with 128 whatever it is asked / [git] clones but has no
    lfs extension that can be started / no [git] at all. *)
Definition git_fails (cmd : list string) (cwd : option path)
    (env : option (gmap string string)) (w : machine) : proc * machine :=
  (Completed 128, w).

Definition git_without_lfs (cmd : list string) (cwd : option path)
    (env : option (gmap string string)) (w : machine) : proc * machine :=
  if is_clone_cmd cmd then (Completed 0, populated) else (NotFound, w).

Definition no_git (cmd : list string) (cwd : option path)
    (env : option (gmap string string)) (w : machine) : proc * machine :=
  (NotFound, w).

Definition no_environ : gmap string string := ∅.

Definition default_args : Args :=
  {| repo := "nomic-ai/nomic-embed-text-v2-moe"; out := dest; token := None;
     no_symlinks := false; force := false; no_insecure := false |}.

Definition secure_args : Args :=
  {| repo := "nomic-ai/nomic-embed-text-v2-moe"; out := dest; token := None;
     no_symlinks := false; force := false; no_insecure := true |}.

Definition forced_secure_args : Args :=
  {| repo := "nomic-ai/nomic-embed-text-v2-moe"; out := dest; token := None;
     no_symlinks := false; force := true; no_insecure := true |}.

Definition forced_args : Args :=
  {| repo := "nomic-ai/nomic-embed-text-v2-moe"; out := dest; token := None;
     no_symlinks := false; force := true; no_insecure := false |}.

End Fixture.

(** ** Further reading of events and trees *)

Definition is_snapshot (e : event) : bool :=
  match e with SnapshotDownload _ _ _ _ _ => true | _ => false end.

Definition is_subprocess (e : event) : bool :=
  match e with SubprocessRun _ _ _ _ => true | _ => false end.

Definition is_mkdir (e : event) : bool :=
  match e with MkdirParents _ => true | _ => false end.

Definition count_events (f : event -> bool) (log : list event) : nat :=
  length (List.filter f log).

(** The command lines [git lfs install] and [git lfs pull]. *)
Definition lfs_cmd (sub : string) : list string := ["git"; "lfs"; sub].

Definition is_lfs_cmd (sub : string) (cmd : list string) : bool :=
  match cmd with
  | [git; lfs; s] => String.eqb git "git" && String.eqb lfs "lfs" && String.eqb s sub
  | _ => false
  end.

Definition is_lfs_install_not_started (e : event) : bool :=
  match e with
  | SubprocessRun cmd _ _ NotFound => is_lfs_cmd "install" cmd
  | _ => false
  end.

Definition is_lfs_install_completed (e : event) : bool :=
  match e with
  | SubprocessRun cmd _ _ (Completed _) => is_lfs_cmd "install" cmd
  | _ => false
  end.

Definition is_lfs_pull (e : event) : bool :=
  match e with
  | SubprocessRun cmd _ _ _ => is_lfs_cmd "pull" cmd
  | _ => false
  end.

(** What [exists()] answers for a name among the entries of a directory. *)
Definition entry_present (es : list (string * node)) (f : string) : bool :=
  match assoc f es with
  | Some (File _) | Some (Dir _) => true
  | _ => false
  end.

(** All three requirement labels, in the order they are checked. *)
Definition all_labels : list string :=
  ["config.json"; weights_label; tokenizer_label].

(** The number of entries [print_summary] prints at most: the loop tests
    the counter only after it has printed, so a cap below one still lets
    one entry through. *)
Definition cap (max_files : Z) : nat := Z.to_nat (Z.max 1 max_files).



(** Two paths that part ways below a common prefix: neither lies below
    the other. *)
Definition diverge (p q : path) : Prop :=
  exists (r : path) (a b : string) (p' q' : path),
    a <> b /\ p = r ++ a :: p' /\ q = r ++ b :: q'.

(** ** More concrete machines *)

Module Bench.

(** A regular file sits where the destination should be. *)
Definition blocked : Fixture.machine :=
  World (Fixture.disk_with [("nomic", File 12)]) tt.

(** The destination next to another model. *)
Definition shared : Fixture.machine :=
  World (Fixture.disk_with [("nomic", Fixture.partial_model); ("bert", Fixture.full_model)]) tt.

(** [git] clones, and its lfs extension starts but exits with an error. *)
Definition git_lfs_errors (cmd : list string) (cwd : option path)
    (env : option (gmap string string)) (w : Fixture.machine) : proc * Fixture.machine :=
  if is_clone_cmd cmd then (Completed 0, Fixture.populated) else (Completed 1, w).

Definition token_environ : gmap string string :=
  <["HF_TOKEN" := "hf_from_environment"]> ∅.

(** [--token ""] on the command line. *)
Definition empty_token_args : Args :=
  {| repo := "nomic-ai/nomic-embed-text-v2-moe"; out := Fixture.dest; token := Some "";
     no_symlinks := true; force := false; no_insecure := false |}.

End Bench.

(** * Properties *)

(** ** Helper lemmas: the listing of [print_summary] *)

Section Listing.

Context {Ext : Type}.
Implicit Types (w : world (Ext:=Ext)) (out_dir root p : path).

Lemma relative_to_app (base r : path) : relative_to (base ++ r) base = Some r.
Proof.
  induction base as [|b base IH]; simpl; [reflexivity|].
  rewrite String.eqb_refl. exact IH.
Qed.

Lemma try_stat_size p w :
  try_except (stat_size p) (fun _ => Some (ret 0)) w = (Returned (shown_size (fs w) p), w, []).
Proof.
  unfold try_except, stat_size, shown_size, bind, read_fs, ret, raise.
  destruct (lookup_path (fs w) p) as [[sz| |es]|]; reflexivity.
Qed.

Lemma budget_stop max_files count :
  (max_files <=? count + 1)%Z = true -> budget max_files count = 1%nat.
Proof. unfold budget. intros H%Z.leb_le. lia. Qed.

Lemma budget_step max_files count :
  (max_files <=? count + 1)%Z = false ->
  budget max_files count = S (budget max_files (count + 1)).
Proof. unfold budget. intros H%Z.leb_gt. lia. Qed.

Lemma budget_pos max_files count : (1 <= budget max_files count)%nat.
Proof. unfold budget. lia. Qed.

(** The inner loop: it prints the files of one directory until the
    budget is used up. *)
Lemma summary_files_eq out_dir r max_files files count w :
  summary_files out_dir (out_dir ++ r) max_files files count w =
  if (length files <? budget max_files count)%nat
  then (Returned (Some (count + Z.of_nat (length files))), w,
        map (fun name => entry_line (fs w) out_dir ((out_dir ++ r) ++ [name])) files)
  else (Returned None, w,
        map (fun name => entry_line (fs w) out_dir ((out_dir ++ r) ++ [name]))
          (firstn (budget max_files count) files)
        ++ [Output stdout (MsgTruncated max_files)]).
Proof.
  revert count. induction files as [|name files IH]; intros count.
  - simpl. pose proof (budget_pos max_files count) as Hb.
    destruct (budget max_files count) as [|b]; [lia|].
    simpl. unfold ret. do 4 f_equal. lia.
  - cbn [summary_files].
    rewrite <- (app_assoc out_dir r [name]), relative_to_app.
    unfold bind at 1. unfold ret at 1.
    unfold bind at 1. rewrite try_stat_size.
    unfold bind at 1. unfold print at 1, emit at 1.
    assert (Hline : Output stdout (MsgFileEntry (r ++ [name]) (shown_size (fs w) (out_dir ++ r ++ [name])))
                    = entry_line (fs w) out_dir ((out_dir ++ r) ++ [name])).
    { unfold entry_line. rewrite <- (app_assoc out_dir r [name]).
      rewrite drop_app_length. reflexivity. }
    destruct (max_files <=? count + 1)%Z eqn:Hc.
    + rewrite (budget_stop _ _ Hc). simpl.
      unfold bind, print, emit, ret. simpl. rewrite Hline. reflexivity.
    + rewrite (budget_step _ _ Hc). rewrite IH.
      cbn [length]. change (S (length files) <? S ?b)%nat with (length files <? b)%nat.
      destruct (length files <? budget max_files (count + 1))%nat.
      * simpl. rewrite Hline. do 4 f_equal. lia.
      * simpl. rewrite Hline. reflexivity.
Qed.

Lemma budget_advance max_files count (n : nat) :
  (n < budget max_files count)%nat ->
  budget max_files (count + Z.of_nat n) = (budget max_files count - n)%nat.
Proof. unfold budget. lia. Qed.

Lemma listed_cons root dirs files triples :
  listed ((root, dirs, files) :: triples) =
  map (fun name => root ++ [name]) files ++ listed triples.
Proof. reflexivity. Qed.

(** The outer loop, for triples whose roots lie below [out_dir] (as those
    of [os.walk(out_dir)] do). *)
Lemma summary_walk_eq out_dir max_files triples :
  Forall (fun t => exists r, fst (fst t) = out_dir ++ r) triples ->
  forall count w,
  summary_walk out_dir max_files triples count w =
  (Returned tt, w,
   if (length (listed triples) <? budget max_files count)%nat
   then map (entry_line (fs w) out_dir) (listed triples)
   else map (entry_line (fs w) out_dir) (firstn (budget max_files count) (listed triples))
        ++ [Output stdout (MsgTruncated max_files)]).
Proof.
  induction 1 as [|[[root dirs] files] triples [r Hr] _ IH]; intros count w.
  - simpl. pose proof (budget_pos max_files count) as Hb.
    destruct (budget max_files count); [lia|]. reflexivity.
  - simpl in Hr. subst root. cbn [summary_walk].
    unfold bind at 1. rewrite summary_files_eq.
    rewrite listed_cons, length_app, length_map.
    set (b := budget max_files count).
    set (here := map (fun name => (out_dir ++ r) ++ [name]) files).
    assert (Hmap : map (fun name => entry_line (fs w) out_dir ((out_dir ++ r) ++ [name])) files
                   = map (entry_line (fs w) out_dir) here).
    { unfold here. rewrite map_map. reflexivity. }
    assert (Hlen : length here = length files) by apply length_map.
    destruct (length files <? b)%nat eqn:Hfiles.
    + apply Nat.ltb_lt in Hfiles.
      rewrite IH, (budget_advance _ _ _ Hfiles). fold b.
      rewrite Hmap.
      destruct (length (listed triples) <? b - length files)%nat eqn:Hrest.
      * apply Nat.ltb_lt in Hrest.
        replace (length files + length (listed triples) <? b)%nat with true
          by (symmetry; apply Nat.ltb_lt; lia).
        rewrite map_app. reflexivity.
      * apply Nat.ltb_ge in Hrest.
        replace (length files + length (listed triples) <? b)%nat with false
          by (symmetry; apply Nat.ltb_ge; lia).
        rewrite firstn_app, Hlen, (firstn_all2 here) by lia.
        rewrite map_app, <- app_assoc. reflexivity.
    + apply Nat.ltb_ge in Hfiles.
      replace (length files + length (listed triples) <? b)%nat with false
        by (symmetry; apply Nat.ltb_ge; lia).
      rewrite firstn_app, Hlen.
      replace (b - length files)%nat with O by lia.
      rewrite firstn_0, app_nil_r.
      unfold here. rewrite firstn_map, map_map.
      unfold ret. rewrite app_nil_r. reflexivity.
Qed.

(** An induction principle for the nested tree. *)
Lemma node_induction (P : node -> Prop) :
  (forall sz, P (File sz)) ->
  P Dangling ->
  (forall es, Forall (fun e => P (snd e)) es -> P (Dir es)) ->
  forall n, P n.
Proof.
  intros P_File P_Dangling P_Dir. fix IH 1. intros [sz| |es].
  - apply P_File.
  - apply P_Dangling.
  - apply P_Dir. revert es. fix IHes 1. intros [|e es].
    + constructor.
    + constructor; [apply IH|apply IHes].
Qed.

Lemma walk_node_below n : forall top,
  Forall (fun t => exists r, fst (fst t) = top ++ r) (walk_node top n).
Proof.
  induction n as [sz| |es IH] using node_induction; intros top; simpl; try constructor.
  - exists []. simpl. symmetry. apply app_nil_r.
  - induction IH as [|[name m] es Hm _ IHes]; simpl; [constructor|].
    apply Forall_app. split; [|exact IHes].
    simpl in Hm. eapply Forall_impl; [apply (Hm (top ++ [name]))|].
    intros t [r Hr]. exists (name :: r). rewrite Hr, <- app_assoc. reflexivity.
Qed.

Lemma os_walk_below tree out_dir :
  Forall (fun t => exists r, fst (fst t) = out_dir ++ r) (os_walk tree out_dir).
Proof.
  unfold os_walk. destruct (lookup_path tree out_dir); [apply walk_node_below|constructor].
Qed.

Lemma listed_app l1 l2 : listed (l1 ++ l2) = listed l1 ++ listed l2.
Proof. unfold listed. apply flat_map_app. Qed.

(** The walk lists every file of the tree once. *)
Lemma length_listed_walk n : forall top,
  length (listed (walk_node top n)) = count_files n.
Proof.
  induction n as [sz| |es IH] using node_induction; intros top; try reflexivity.
  cbn [walk_node count_files]. rewrite listed_cons, length_app, length_map.
  unfold filenames. rewrite length_map.
  induction IH as [|[name m] es Hm _ IHes]; [reflexivity|].
  cbn [flat_map map list_sum List.filter fst snd] in *.
  rewrite listed_app, length_app, (Hm (top ++ [name])).
  destruct (is_dir m); simpl; lia.
Qed.

Lemma length_listing tree out_dir :
  length (listing tree out_dir) = files_below tree out_dir.
Proof.
  unfold listing, files_below, os_walk.
  destruct (lookup_path tree out_dir); [apply length_listed_walk|reflexivity].
Qed.

(** [print_summary] never raises, leaves the world as it is, and prints
    the header, then the first files of the listing up to the budget,
    then the notice when the budget was reached. *)
Lemma print_summary_eq out_dir max_files w :
  print_summary out_dir max_files w =
  (Returned tt, w,
   Output stdout (MsgSummaryHeader out_dir) ::
   (if (length (listing (fs w) out_dir) <? budget max_files 0)%nat
    then map (entry_line (fs w) out_dir) (listing (fs w) out_dir)
    else map (entry_line (fs w) out_dir)
           (firstn (budget max_files 0) (listing (fs w) out_dir))
         ++ [Output stdout (MsgTruncated max_files)])).
Proof.
  unfold print_summary, bind, print, emit, read_fs.
  rewrite (summary_walk_eq _ _ _ (os_walk_below (fs w) out_dir)).
  reflexivity.
Qed.

End Listing.

(** ** Helper lemmas: removing a tree *)

Lemma assoc_delete_entry {A} (name : string) (es : list (string * A)) :
  assoc name (delete_entry name es) = None.
Proof.
  induction es as [|[k v] es IH]; [reflexivity|].
  unfold delete_entry in *. cbn [List.filter fst].
  destruct (String.eqb k name) eqn:E; cbn [negb]; [exact IH|].
  cbn [assoc]. rewrite E. exact IH.
Qed.

Lemma assoc_alter_entry {A} (f : A -> A) (name : string) (es : list (string * A)) :
  assoc name (alter_entry f name es) = option_map f (assoc name es).
Proof.
  induction es as [|[k v] es IH]; [reflexivity|].
  unfold alter_entry in *. cbn [map fst snd assoc].
  destruct (String.eqb k name) eqn:E; cbn [assoc]; rewrite E; [reflexivity|exact IH].
Qed.

(** After [unlink] nothing is left at the path (the root excepted). *)
Lemma lookup_unlink (p : path) : forall n, p <> [] -> lookup_path (unlink p n) p = None.
Proof.
  induction p as [|c p IH]; intros n Hne; [congruence|].
  destruct n as [sz| |es]; [destruct p; reflexivity..|].
  destruct p as [|c' p'].
  - cbn [unlink lookup_path]. rewrite assoc_delete_entry. reflexivity.
  - cbn [unlink]. cbn [lookup_path].
    rewrite assoc_alter_entry.
    destruct (assoc c es) as [m|]; [|reflexivity].
    cbn [option_map]. apply (IH m). discriminate.
Qed.

(** ** Helper lemmas: the completeness check and the report *)

Section Report.

Context {Ext : Type}.
Implicit Types (w : world (Ext:=Ext)) (out_dir : path).

(** [check_required_files] returns the labels of the unmet requirements,
    changes nothing, and prints at most the modules warning. *)
Lemma check_required_files_eq out_dir w :
  check_required_files out_dir w =
  (Returned (unmet_labels (fs w) out_dir), w, modules_lines (fs w) out_dir).
Proof.
  unfold check_required_files, exists_, any_exists, unmet_labels, satisfied,
    modules_lines, has_modules, tokenizer_names.
  unfold bind, read_fs, ret, print, emit.
  cbn [existsb required_file_set List.filter map fst snd app].
  rewrite !orb_false_r.
  generalize (path_exists (fs w) (out_dir ++ ["config.json"])).
  generalize (path_exists (fs w) (out_dir ++ ["model.safetensors"])
              || path_exists (fs w) (out_dir ++ ["pytorch_model.bin"])).
  generalize (path_exists (fs w) (out_dir ++ ["tokenizer.json"])
              || (path_exists (fs w) (out_dir ++ ["tokenizer_config.json"])
                  || (path_exists (fs w) (out_dir ++ ["sentencepiece.bpe.model"])
                      || path_exists (fs w) (out_dir ++ ["vocab.txt"])))).
  generalize (path_exists (fs w) (out_dir ++ ["modules.json"])).
  intros [] [] [] [];
  reflexivity.
Qed.

Lemma print_items_eq (missing : list string) w :
  fold_right (fun m k => bind (print stdout (MsgMissingItem m)) (fun _ => k)) (ret tt) missing w =
  (Returned tt, w, map (fun m => Output stdout (MsgMissingItem m)) missing).
Proof.
  induction missing as [|m missing IH]; [reflexivity|].
  cbn [fold_right map]. unfold bind at 1. unfold print at 1, emit at 1.
  rewrite IH. reflexivity.
Qed.

(** [report] never raises, changes nothing and returns 0. *)
Lemma report_eq out_dir w :
  report out_dir w = (Returned 0, w, report_log (fs w) out_dir).
Proof.
  unfold report, report_log.
  unfold bind at 1. rewrite check_required_files_eq.
  unfold bind at 1.
  assert (Hverdict :
    (match unmet_labels (fs w) out_dir with
     | [] => print stdout MsgAllFound
     | _ :: _ =>
         bind (print stdout MsgMissingHeader) (fun _ =>
         bind (fold_right (fun m k => bind (print stdout (MsgMissingItem m)) (fun _ => k))
                 (ret tt) (unmet_labels (fs w) out_dir)) (fun _ =>
         print stderr MsgMissingHint))
     end) w = (Returned tt, w, verdict_lines (unmet_labels (fs w) out_dir))).
  { destruct (unmet_labels (fs w) out_dir) as [|m ms] eqn:E; [reflexivity|].
    unfold bind at 1. unfold print at 1, emit at 1.
    unfold bind at 1. rewrite print_items_eq. reflexivity. }
  rewrite Hverdict.
  unfold bind at 1. rewrite print_summary_eq.
  unfold bind, print, emit, ret. cbn [app]. unfold summary_lines, guidance_lines.
  reflexivity.
Qed.

End Report.

(** ** Helper lemmas: the runs of [main] *)

Lemma report_log_plain tree out_dir : forallb is_plain_print (report_log tree out_dir) = true.
Proof.
  unfold report_log, modules_lines, verdict_lines, summary_lines, guidance_lines.
  rewrite !forallb_app.
  assert (Hitems : forall l, forallb is_plain_print
                     (map (fun m => Output stdout (MsgMissingItem m)) l) = true)
    by (induction l; simpl; auto).
  assert (Hentries : forall l, forallb is_plain_print (map (entry_line tree out_dir) l) = true)
    by (induction l; simpl; auto).
  destruct (has_modules tree out_dir); destruct (unmet_labels tree out_dir);
    cbn [forallb is_plain_print andb]; rewrite ?forallb_app, ?Hitems;
    destruct (length (listing tree out_dir) <? budget default_max_files 0)%nat;
    rewrite ?forallb_app, ?Hentries; reflexivity.
Qed.

Lemma existsb_plain (f : event -> bool) (l : list event) :
  (forall e, is_plain_print e = true -> f e = false) ->
  forallb is_plain_print l = true -> existsb f l = false.
Proof.
  intros Hf. induction l as [|e l IH]; simpl; [reflexivity|].
  intros [He Hl]%andb_true_iff. rewrite (Hf e He), (IH Hl). reflexivity.
Qed.

Lemma plain_not_snapshot_success e : is_plain_print e = true -> is_snapshot_success e = false.
Proof. destruct e; simpl; congruence. Qed.
Lemma plain_not_snapshot_failure e : is_plain_print e = true -> is_snapshot_failure e = false.
Proof. destruct e; simpl; congruence. Qed.
Lemma plain_not_fallback_step e : is_plain_print e = true -> is_fallback_step e = false.
Proof. destruct e as [s []| | | |]; simpl; congruence. Qed.
Lemma plain_not_clone_failure e : is_plain_print e = true -> is_clone_failure e = false.
Proof. destruct e; simpl; congruence. Qed.
Lemma plain_not_clone_success e : is_plain_print e = true -> is_clone_success e = false.
Proof. destruct e; simpl; congruence. Qed.

Lemma plain_not_clone_not_started e : is_plain_print e = true -> is_clone_not_started e = false.
Proof. destruct e; simpl; congruence. Qed.

Lemma report_no_snapshot_success tree out_dir :
  existsb is_snapshot_success (report_log tree out_dir) = false.
Proof. apply existsb_plain; [apply plain_not_snapshot_success|apply report_log_plain]. Qed.
Lemma report_no_snapshot_failure tree out_dir :
  existsb is_snapshot_failure (report_log tree out_dir) = false.
Proof. apply existsb_plain; [apply plain_not_snapshot_failure|apply report_log_plain]. Qed.
Lemma report_no_fallback_step tree out_dir :
  existsb is_fallback_step (report_log tree out_dir) = false.
Proof. apply existsb_plain; [apply plain_not_fallback_step|apply report_log_plain]. Qed.
Lemma report_no_clone_failure tree out_dir :
  existsb is_clone_failure (report_log tree out_dir) = false.
Proof. apply existsb_plain; [apply plain_not_clone_failure|apply report_log_plain]. Qed.
Lemma report_no_clone_success tree out_dir :
  existsb is_clone_success (report_log tree out_dir) = false.
Proof. apply existsb_plain; [apply plain_not_clone_success|apply report_log_plain]. Qed.

Lemma report_no_clone_not_started tree out_dir :
  existsb is_clone_not_started (report_log tree out_dir) = false.
Proof. apply existsb_plain; [apply plain_not_clone_not_started|apply report_log_plain]. Qed.

Lemma ends_with_refl {A} (R : list A) : exists l, R = l ++ R.
Proof. exists []. reflexivity. Qed.

Lemma ends_with_cons {A} (x : A) (L R : list A) :
  (exists l, L = l ++ R) -> exists l, x :: L = l ++ R.
Proof. intros [l ->]. exists (x :: l). reflexivity. Qed.

Ltac ends_with := repeat first [apply ends_with_refl | apply ends_with_cons].

Lemma clone_cmd_is_clone repo_id out_dir : is_clone_cmd (clone_cmd repo_id out_dir) = true.
Proof. reflexivity. Qed.

Lemma lfs_install_not_clone : is_clone_cmd ["git"; "lfs"; "install"] = false.
Proof. reflexivity. Qed.

Lemma lfs_pull_not_clone : is_clone_cmd ["git"; "lfs"; "pull"] = false.
Proof. reflexivity. Qed.

Create Rewrite HintDb run_log.
#[export] Hint Rewrite existsb_app report_no_snapshot_success report_no_snapshot_failure
  report_no_fallback_step report_no_clone_failure report_no_clone_success
  report_no_clone_not_started
  clone_cmd_is_clone lfs_install_not_clone lfs_pull_not_clone
  orb_false_r orb_true_r : run_log.

Section Runs.

Context {Ext : Type}.
Variable snapshot_download :
  string -> path -> bool -> option string -> world (Ext:=Ext) -> (string + exception) * world (Ext:=Ext).
Variable spawn :
  list string -> option path -> option (gmap string string) -> world (Ext:=Ext) -> proc * world (Ext:=Ext).
Variable environ : gmap string string.

Local Abbreviation main' := (main snapshot_download spawn environ).
Local Abbreviation fetch' := (fetch snapshot_download spawn environ).
Local Abbreviation run_insecure_git_clone' := (run_insecure_git_clone spawn environ).

(** Splits a run of [main] into the paths the oracles allow. *)
Ltac run_paths :=
  unfold main, fetch, prepare_destination, run_insecure_git_clone, run_snapshot_download,
    rmtree, mkdir_parents, subprocess_run, exists_;
  unfold bind, try_except, read_fs, ret, print, emit, sys_exit, raise;
  repeat match goal with
         | |- context [report ?o ?w] => rewrite (report_eq o w)
         | |- context [match ?x with _ => _ end] =>
             match x with
             | context [match _ with _ => _ end] => fail 1
             | _ => let E := fresh "E" in destruct x eqn:E
             end
         end.

Ltac read_log :=
  unfold primary_succeeded, primary_failed, fallback_invoked, clone_failed, clone_succeeded,
    clone_not_started in *;
  cbn [existsb app is_snapshot_success is_snapshot_failure is_fallback_step
       is_clone_failure is_clone_success is_clone_not_started orb andb exit_status] in *;
  autorewrite with run_log in *;
  cbn [orb andb] in *.

Ltac rc_clash :=
  match goal with
  | H : (?a =? ?b)%Z = _, E : negb (?a =? ?b)%Z = _ |- _ =>
      rewrite H in E; discriminate E
  end.

(** The fallback policy table for runs in which the clone, once reached,
    is started: a run whose Primary Fetch succeeded goes on to the report
    and exits 0; a run whose Primary Fetch failed under [--no-insecure]
    exits 2 without any step of the fallback; a run whose Primary Fetch
    failed, with the fallback allowed, and whose [git clone] exited with
    a non-zero status exits 3. *)
Theorem exit_status_policy (args : Args) (w w' : world) (r : outcome Z) (log : list event) :
  main' args w = (r, w', log) ->
  (primary_succeeded log = true ->
     exit_status r = 0 /\ exists l, log = l ++ report_log (fs w') (out args)) /\
  (primary_failed log = true -> no_insecure args = true ->
     exit_status r = 2 /\ fallback_invoked log = false) /\
  (primary_failed log = true -> no_insecure args = false -> clone_failed log = true ->
     exit_status r = 3).
Proof.
  run_paths.
  all: intros [= <- <- <-]; read_log.
  all: repeat split; intros; try discriminate; try congruence.
  all: ends_with.
Qed.

(** C2. When Primary Fetch succeeds no step of the insecure fallback
    happens (no [mkdir], no banner, no process); a run contains a
    fallback step only if Primary Fetch failed and [--no-insecure] was
    not given. *)
Theorem fallback_only_after_failure (args : Args) (w w' : world) (r : outcome Z)
    (log : list event) :
  main' args w = (r, w', log) ->
  (primary_succeeded log = true -> fallback_invoked log = false) /\
  (fallback_invoked log = true ->
     primary_failed log = true /\ no_insecure args = false).
Proof.
  run_paths.
  all: intros [= <- <- <-]; read_log.
  all: repeat split; intros; try discriminate; try congruence.
Qed.

Lemma missing_items_reported tree out_dir m :
  In m (unmet_labels tree out_dir) ->
  In (Output stdout (MsgMissingItem m)) (report_log tree out_dir).
Proof.
  intros Hm. unfold report_log. apply in_or_app. right. apply in_or_app. left.
  unfold verdict_lines. destruct (unmet_labels tree out_dir) as [|m0 ms]; [destruct Hm|].
  right. apply in_or_app. left.
  apply (in_map (fun m => Output stdout (MsgMissingItem m))), Hm.
Qed.

(** C5. Completeness gaps are never fatal: a run whose download
    succeeded, by Primary Fetch or by the clone of the fallback, returns
    0 and exits 0 whatever the completeness check finds; the run ends
    with the report, which prints each missing item. *)
Theorem completeness_gaps_not_fatal (args : Args) (w w' : world) (r : outcome Z)
    (log : list event) :
  main' args w = (r, w', log) ->
  primary_succeeded log = true \/ clone_succeeded log = true ->
  r = Returned 0 /\ exit_status r = 0 /\
  (exists l, log = l ++ report_log (fs w') (out args)) /\
  (forall m, In m (unmet_labels (fs w') (out args)) ->
     In (Output stdout (MsgMissingItem m)) log).
Proof.
  intros Hrun Hok.
  assert (H : r = Returned 0 /\ exists l, log = l ++ report_log (fs w') (out args)).
  { revert Hrun Hok. run_paths.
    all: intros [= <- <- <-]; read_log.
    all: intros [?|?]; try discriminate; try congruence; try rc_clash.
    all: split; [reflexivity|ends_with]. }
  destruct H as [-> [l ->]]. repeat split; [eexists; reflexivity|].
  intros m Hm. apply in_or_app. right. apply missing_items_reported, Hm.
Qed.

Ltac rc_zero :=
  repeat match goal with
         | E : negb (?a =? 0)%Z = false |- _ =>
             apply negb_false_iff, Z.eqb_eq in E; subst a
         end.

(** C9. A failing large-file step is not fatal and shows in the log
    only: whenever the [git clone] of [run_insecure_git_clone] exits
    with status 0 the function returns [True], and after the clone the
    log holds exactly the lfs steps: [git lfs install] is started; if it
    cannot be started the git-lfs hint goes to standard error and
    nothing else happens; if it ran, whatever its return code, the
    announcement is printed and [git lfs pull] is started, with the same
    hint when that cannot be started and no line at all for its return
    code. *)
Theorem lfs_failure_not_fatal (repo_id : string) (out_dir : path) (w w' : world)
    (r : outcome bool) (log : list event) :
  run_insecure_git_clone' repo_id out_dir w = (r, w', log) ->
  clone_succeeded log = true ->
  r = Returned true /\
  exists lfs_log,
    log = MkdirParents (parent out_dir) ::
          Output stderr MsgInsecureBanner ::
          Output stderr MsgAbortNow ::
          Output stderr (MsgCommand (clone_cmd repo_id out_dir)) ::
          SubprocessRun (clone_cmd repo_id out_dir) None (Some (clone_env environ))
            (Completed 0) :: lfs_log /\
    (lfs_log = [SubprocessRun ["git"; "lfs"; "install"] (Some out_dir) None NotFound;
                Output stderr MsgLfsNotInstalled] \/
     (exists rc,
        lfs_log = [SubprocessRun ["git"; "lfs"; "install"] (Some out_dir) None (Completed rc);
                   Output stdout MsgLfsAttempt;
                   SubprocessRun ["git"; "lfs"; "pull"] (Some out_dir) None NotFound;
                   Output stderr MsgLfsNotInstalled]) \/
     (exists rc rc',
        lfs_log = [SubprocessRun ["git"; "lfs"; "install"] (Some out_dir) None (Completed rc);
                   Output stdout MsgLfsAttempt;
                   SubprocessRun ["git"; "lfs"; "pull"] (Some out_dir) None (Completed rc')])).
Proof.
  unfold run_insecure_git_clone. run_paths.
  all: intros [= <- <- <-]; read_log.
  all: intros; try discriminate; try congruence; try rc_clash.
  all: rc_zero; split; [reflexivity|]; eexists; split; [reflexivity|].
  all: eauto 6.
Qed.

(** C4, as the code has it. When Primary Fetch fails under
    [--no-insecure] the process exits with status 2, no step of the
    fallback happens, and the program changes nothing after Destination
    Preparation: the final world is the one the failed download left.
    When in addition Destination Preparation removed nothing (no
    [--force], or no destination yet) and the failed download left the
    world as it found it, the world, and so the destination, is
    unchanged. *)
Theorem no_fallback_exit_and_frame (args : Args) (w w' : world) (r : outcome Z)
    (log : list event) :
  main' args w = (r, w', log) ->
  primary_failed log = true ->
  no_insecure args = true ->
  exit_status r = 2 /\
  fallback_invoked log = false /\
  w' = snd (snapshot_download (repo args) (out args) (negb (no_symlinks args))
              (effective_token environ args) (prepared args w)) /\
  (path_exists (fs w) (out args) && force args = false ->
   snd (snapshot_download (repo args) (out args) (negb (no_symlinks args))
          (effective_token environ args) w) = w ->
   w' = w /\ lookup_path (fs w') (out args) = lookup_path (fs w) (out args)).
Proof.
  intros Hrun Hfail Hno.
  assert (H : exit_status r = 2 /\ fallback_invoked log = false /\
              w' = snd (snapshot_download (repo args) (out args) (negb (no_symlinks args))
                          (effective_token environ args) (prepared args w))).
  { revert Hrun Hfail. unfold prepared, effective_token. run_paths.
    all: intros [= <- <- <-]; read_log.
    all: intros; try discriminate; try congruence.
    all: repeat split; try reflexivity.
    all: cbn [andb];
      repeat match goal with
             | H : out _ = _ |- _ => rewrite H
             | H : snapshot_download _ _ _ _ _ = _ |- _ => rewrite H
             end; reflexivity. }
  destruct H as (Hexit & Hfb & Hw).
  split; [exact Hexit|]. split; [exact Hfb|]. split; [exact Hw|].
  intros Hprep Hsame. unfold prepared in Hw. rewrite Hprep, Hsame in Hw.
  subst w'. split; reflexivity.
Qed.

Local Abbreviation after_preparation' := (after_preparation snapshot_download spawn environ).

(** Whatever follows, the run after Destination Preparation starts by
    calling [snapshot_download] on the world it is given. *)
Lemma after_preparation_starts (args : Args) (w : world) :
  exists rest,
    snd (after_preparation' args w) =
    Output stdout (MsgAttempting (repo args) (out args)) ::
    SnapshotDownload (repo args) (out args) (negb (no_symlinks args))
      (effective_token environ args)
      (fst (snapshot_download (repo args) (out args) (negb (no_symlinks args))
              (effective_token environ args) w)) :: rest.
Proof.
  unfold after_preparation. run_paths.
  all: cbn [snd app]; eexists; reflexivity.
Qed.

(** C8. Destination Preparation.  With the destination present and no
    [--force], the run prints the warning and then goes on exactly as
    the fetch and the report go from the unchanged world, starting with
    the download into the existing path.  With [--force] and a
    directory at the destination (other than the filesystem root), the
    tree is removed, nothing is left at the destination, and the fetch
    and the report go on from there. *)
Theorem destination_preparation (args : Args) (w w' : world) (r : outcome Z)
    (log : list event) :
  main' args w = (r, w', log) ->
  path_exists (fs w) (out args) = true ->
  (force args = false ->
     exists rest,
       log = Output stdout (MsgAlreadyExists (out args)) :: rest /\
       after_preparation' args w = (r, w', rest) /\
       exists rest',
         rest = Output stdout (MsgAttempting (repo args) (out args)) ::
                SnapshotDownload (repo args) (out args) (negb (no_symlinks args))
                  (effective_token environ args)
                  (fst (snapshot_download (repo args) (out args) (negb (no_symlinks args))
                          (effective_token environ args) w)) :: rest') /\
  (force args = true ->
   (exists es, lookup_path (fs w) (out args) = Some (Dir es)) ->
   out args <> [] ->
     lookup_path (unlink (out args) (fs w)) (out args) = None /\
     path_exists (unlink (out args) (fs w)) (out args) = false /\
     exists rest,
       log = Output stdout (MsgRemoving (out args)) :: Rmtree (out args) :: rest /\
       after_preparation' args (World (unlink (out args) (fs w)) (ext w)) = (r, w', rest) /\
       exists rest',
         rest = Output stdout (MsgAttempting (repo args) (out args)) ::
                SnapshotDownload (repo args) (out args) (negb (no_symlinks args))
                  (effective_token environ args)
                  (fst (snapshot_download (repo args) (out args) (negb (no_symlinks args))
                          (effective_token environ args)
                          (World (unlink (out args) (fs w)) (ext w)))) :: rest').
Proof.
  intros Hrun Hexists. split.
  - intros Hforce.
    pose proof (after_preparation_starts args w) as [rest' Hstart].
    revert Hrun Hstart. unfold main, after_preparation, effective_token, prepare_destination, exists_.
    unfold bind at 1 2 3. unfold read_fs at 1. unfold ret at 1.
    rewrite Hexists, Hforce. unfold print at 1, emit at 1.
    set (rest_run := bind _ _ w).
    destruct rest_run as [[r0 w0] rest] eqn:E.
    intros [= <- <- <-] Hstart. cbn [snd] in Hstart.
    exists rest. repeat split. exists rest'. exact Hstart.
  - intros Hforce [es Hdir] Hroot.
    pose proof (lookup_unlink (out args) (fs w) Hroot) as Hgone.
    split; [exact Hgone|]. split; [unfold path_exists; rewrite Hgone; reflexivity|].
    pose proof (after_preparation_starts args (World (unlink (out args) (fs w)) (ext w)))
      as [rest' Hstart].
    revert Hrun Hstart. unfold main, after_preparation, effective_token, prepare_destination, exists_.
    unfold bind at 1 2 3. unfold read_fs at 1. unfold ret at 1.
    rewrite Hexists, Hforce.
    unfold bind at 1. unfold print at 1, emit at 1.
    unfold rmtree. unfold bind at 1. unfold emit at 1. rewrite Hdir.
    destruct (out args) as [|c p] eqn:Eout; [congruence|].
    set (rest_run := bind _ _ _).
    destruct rest_run as [[r0 w0] rest] eqn:E.
    intros [= <- <- <-] Hstart. cbn [snd] in Hstart.
    exists rest. repeat split. exists rest'. exact Hstart.
Qed.

(** X11. Outside the policy table: when the [git] executable cannot be
    started, [subprocess.run] raises [FileNotFoundError], which the
    handler of line 101 does not catch; the exception leaves [main] and
    the interpreter exits with status 1. *)
Lemma clone_not_started_escapes (args : Args) (w w' : world) (r : outcome Z)
    (log : list event) :
  main' args w = (r, w', log) ->
  clone_not_started log = true ->
  r = Raised (Exception FileNotFoundError) /\ exit_status r = 1.
Proof.
  run_paths.
  all: intros [= <- <- <-]; read_log.
  all: intros; try discriminate; try congruence.
  all: split; reflexivity.
Qed.

(** ** Further properties of the runs *)

Ltac rc_cases :=
  repeat match goal with
         | E : negb (?a =? 0)%Z = _ |- _ =>
             destruct (a =? 0)%Z; cbn [negb andb orb] in *; try discriminate E; clear E
         end.

(** X1. How [main] ends, from the parsed arguments on (lines 117-163):
    it returns 0 exactly when Primary Fetch or the clone succeeded, it
    leaves through [sys.exit(2)] exactly when Primary Fetch failed under
    [--no-insecure], and through [sys.exit(3)] exactly when the clone
    ran and exited with a non-zero status. *)
Theorem main_outcome_characterised (args : Args) (w w' : world) (r : outcome Z)
    (log : list event) :
  main' args w = (r, w', log) ->
  (r = Returned 0 <-> primary_succeeded log = true \/ clone_succeeded log = true) /\
  (r = Raised (SystemExit 2) <-> primary_failed log = true /\ no_insecure args = true) /\
  (r = Raised (SystemExit 3) <-> clone_failed log = true).
Proof.
  run_paths.
  all: intros [= <- <- <-]; read_log; rc_cases.
  all: repeat split; intros; try discriminate; try congruence; auto.
  all: try (intuition (discriminate || congruence)).
Qed.

Lemma filter_plain (f : event -> bool) (l : list event) :
  (forall e, is_plain_print e = true -> f e = false) ->
  forallb is_plain_print l = true -> List.filter f l = [].
Proof.
  intros Hf. induction l as [|e l IH]; [reflexivity|].
  cbn [forallb List.filter]. intros [He Hl]%andb_true_iff.
  rewrite (Hf e He). exact (IH Hl).
Qed.

Lemma count_report (f : event -> bool) tree out_dir :
  (forall e, is_plain_print e = true -> f e = false) ->
  List.filter f (report_log tree out_dir) = [].
Proof. intros Hf. apply filter_plain; [exact Hf|apply report_log_plain]. Qed.

Lemma plain_not_snapshot e : is_plain_print e = true -> is_snapshot e = false.
Proof. destruct e; simpl; congruence. Qed.
Lemma plain_not_subprocess e : is_plain_print e = true -> is_subprocess e = false.
Proof. destruct e; simpl; congruence. Qed.
Lemma plain_not_clone_run e : is_plain_print e = true -> is_clone_run e = false.
Proof. destruct e; simpl; congruence. Qed.
Lemma plain_not_mkdir e : is_plain_print e = true -> is_mkdir e = false.
Proof. destruct e; simpl; congruence. Qed.

Ltac count_log :=
  unfold count_events;
  repeat (progress (
    cbn [List.filter is_snapshot is_subprocess is_clone_run app length];
    rewrite ?List.filter_app;
    rewrite ?(count_report is_snapshot _ _ plain_not_snapshot),
            ?(count_report is_subprocess _ _ plain_not_subprocess),
            ?(count_report is_clone_run _ _ plain_not_clone_run);
    rewrite ?clone_cmd_is_clone, ?lfs_install_not_clone, ?lfs_pull_not_clone)).

(** X2. No retries: a run calls [snapshot_download] at most once, starts
    the clone at most once, and starts at most three processes in all. *)
Theorem no_retries (args : Args) (w w' : world) (r : outcome Z) (log : list event) :
  main' args w = (r, w', log) ->
  (count_events is_snapshot log <= 1)%nat /\
  (count_events is_clone_run log <= 1)%nat /\
  (count_events is_subprocess log <= 3)%nat.
Proof.
  run_paths.
  all: intros [= <- <- <-].
  all: repeat split; count_log; lia.
Qed.

(** X3. After a successful Primary Fetch the script writes nothing of its
    own: the final world is the one [snapshot_download] left when called
    on the prepared world, and the fallback's [mkdir] never runs. *)
Theorem primary_success_frame (args : Args) (w w' : world) (r : outcome Z)
    (log : list event) :
  main' args w = (r, w', log) ->
  primary_succeeded log = true ->
  w' = snd (snapshot_download (repo args) (out args) (negb (no_symlinks args))
              (effective_token environ args) (prepared args w)) /\
  existsb is_mkdir log = false.
Proof.
  unfold prepared, effective_token. run_paths.
  all: intros [= <- <- <-]; read_log.
  all: intros; try discriminate; try congruence.
  all: cbn [andb existsb is_mkdir orb app];
    rewrite ?existsb_app, ?(existsb_plain is_mkdir _ plain_not_mkdir (report_log_plain _ _));
    repeat match goal with
           | H : out _ = _ |- _ => rewrite H
           | H : snapshot_download _ _ _ _ _ = _ |- _ => rewrite H
           end; split; reflexivity.
Qed.

(** X4. [--force] with a regular file at the destination: [shutil.rmtree]
    raises, nothing is caught, the interpreter exits with status 1; the
    download is never attempted and the filesystem is untouched. *)
Theorem force_on_file_aborts (args : Args) (w w' : world) (r : outcome Z)
    (log : list event) (sz : Z) :
  main' args w = (r, w', log) ->
  force args = true ->
  lookup_path (fs w) (out args) = Some (File sz) ->
  exit_status r = 1 /\ w' = w /\
  log = [Output stdout (MsgRemoving (out args)); Rmtree (out args)].
Proof.
  intros Hrun Hforce Hfile. revert Hrun.
  unfold main, prepare_destination, exists_, rmtree, path_exists.
  unfold bind, read_fs, ret, print, emit.
  rewrite Hfile, Hforce. cbn -[out]. rewrite Hfile. cbn -[out].
  intros [= <- <- <-]. repeat split.
Qed.

(** X5. Destination Preparation settles in one step: once it has
    succeeded under [--force], a second preparation finds nothing at the
    destination, prints nothing and changes nothing. *)
Theorem prepare_destination_idempotent (args : Args) (w w1 : world (Ext:=Ext))
    (l : list event) :
  prepare_destination args w = (Returned tt, w1, l) ->
  force args = true ->
  prepare_destination args w1 = (Returned tt, w1, []).
Proof.
  intros Hrun Hforce. revert Hrun.
  unfold prepare_destination, exists_, rmtree.
  unfold bind, read_fs, ret, print, emit. rewrite Hforce.
  destruct (path_exists (fs w) (out args)) eqn:Hexists.
  - destruct (lookup_path (fs w) (out args)) as [[sz| |es]|] eqn:Hlook; try discriminate.
    destruct (out args) as [|c p] eqn:Hout; [discriminate|].
    pose proof (lookup_unlink (c :: p) (fs w) ltac:(discriminate)) as Hgone.
    remember (unlink (c :: p) (fs w)) as tree eqn:Htree.
    intros [= <- <-]. unfold path_exists. cbn [fs].
    rewrite Hgone. reflexivity.
  - intros [= <- <-]. rewrite Hexists. reflexivity.
Qed.

(** X7. The insecure fallback announces itself first: in every run of
    [run_insecure_git_clone] that starts a process at all, the log opens
    with the [mkdir] of the parent, the banner, the abort notice and the
    command line on standard error, and only then the clone, which is
    the first process and the only clone. *)
Theorem fallback_announces_before_clone (repo_id : string) (out_dir : path) (w w' : world)
    (r : outcome bool) (log : list event) :
  run_insecure_git_clone' repo_id out_dir w = (r, w', log) ->
  existsb is_subprocess log = true ->
  exists res rest,
    log = MkdirParents (parent out_dir) ::
          Output stderr MsgInsecureBanner ::
          Output stderr MsgAbortNow ::
          Output stderr (MsgCommand (clone_cmd repo_id out_dir)) ::
          SubprocessRun (clone_cmd repo_id out_dir) None (Some (clone_env environ)) res ::
          rest /\
    existsb is_clone_run rest = false.
Proof.
  run_paths.
  all: intros [= <- <- <-]; cbn [existsb is_subprocess orb app].
  all: intros; try discriminate.
  all: do 2 eexists; split; [reflexivity|].
  all: cbn [existsb is_clone_run orb];
    rewrite ?lfs_install_not_clone, ?lfs_pull_not_clone; reflexivity.
Qed.

(** X8. Only the clone gets the TLS override in its environment: it runs
    with a copy of [os.environ] in which GIT_SSL_NO_VERIFY is "true" and
    every other variable is as inherited, and with no working
    directory; the two lfs commands run in the destination with the
    inherited environment.  No other process is started. *)
Theorem fallback_process_environment (repo_id : string) (out_dir : path) (w w' : world)
    (r : outcome bool) (log : list event) :
  run_insecure_git_clone' repo_id out_dir w = (r, w', log) ->
  clone_env environ !! "GIT_SSL_NO_VERIFY" = Some "true" /\
  (forall k : string, k <> "GIT_SSL_NO_VERIFY" -> clone_env environ !! k = environ !! k) /\
  (forall cmd cwd env res, In (SubprocessRun cmd cwd env res) log ->
     (cmd = clone_cmd repo_id out_dir /\ cwd = None /\ env = Some (clone_env environ)) \/
     ((cmd = lfs_cmd "install" \/ cmd = lfs_cmd "pull") /\ cwd = Some out_dir /\ env = None)).
Proof.
  intros Hrun. split; [apply lookup_insert_eq|].
  split; [intros k Hk; unfold clone_env; apply lookup_insert_ne; congruence|].
  revert Hrun. run_paths.
  all: intros [= <- <- <-]; cbn [app In].
  all: intros cmd cwd env res Hin.
  all: repeat (destruct Hin as [Hin|Hin]; [try discriminate Hin|]); try (exfalso; exact Hin).
  all: injection Hin as <- <- <- <-; unfold lfs_cmd; auto 6.
Qed.

Lemma install_is_lfs_install : is_lfs_cmd "install" ["git"; "lfs"; "install"] = true.
Proof. reflexivity. Qed.
Lemma pull_is_lfs_pull : is_lfs_cmd "pull" ["git"; "lfs"; "pull"] = true.
Proof. reflexivity. Qed.
Lemma install_not_lfs_pull : is_lfs_cmd "pull" ["git"; "lfs"; "install"] = false.
Proof. reflexivity. Qed.
Lemma pull_not_lfs_install : is_lfs_cmd "install" ["git"; "lfs"; "pull"] = false.
Proof. reflexivity. Qed.
Lemma clone_not_lfs (sub repo_id : string) (out_dir : path) :
  is_lfs_cmd sub (clone_cmd repo_id out_dir) = false.
Proof. reflexivity. Qed.

(** X9. The two lfs steps share one [try]: when [git lfs install] cannot
    be started, [git lfs pull] is not attempted, the hint about git-lfs
    is printed and the function still returns [True]; when [git lfs
    install] ran, whatever its return code, [git lfs pull] is attempted
    after the announcement. *)
Theorem lfs_pull_follows_install (repo_id : string) (out_dir : path) (w w' : world)
    (r : outcome bool) (log : list event) :
  run_insecure_git_clone' repo_id out_dir w = (r, w', log) ->
  (existsb is_lfs_install_not_started log = true ->
     existsb is_lfs_pull log = false /\
     In (Output stderr MsgLfsNotInstalled) log /\ r = Returned true) /\
  (existsb is_lfs_install_completed log = true ->
     existsb is_lfs_pull log = true /\ In (Output stdout MsgLfsAttempt) log).
Proof.
  run_paths.
  all: intros [= <- <- <-].
  all: cbn [existsb app is_lfs_install_not_started is_lfs_install_completed is_lfs_pull orb In].
  all: rewrite ?install_is_lfs_install, ?pull_is_lfs_pull, ?install_not_lfs_pull,
         ?pull_not_lfs_install, ?clone_not_lfs; cbn [orb].
  all: split; intros; try discriminate; repeat split; auto 12.
Qed.

Lemma in_report_plain (e : event) tree out_dir :
  In e (report_log tree out_dir) -> is_plain_print e = true.
Proof.
  intros Hin. pose proof (report_log_plain tree out_dir) as Hall.
  rewrite forallb_forall in Hall. apply Hall, Hin.
Qed.

Lemma token_precedence (args : Args) :
  effective_token environ args =
  if truthy (token args) then token args
  else if truthy (environ !! "HF_TOKEN") then environ !! "HF_TOKEN"
       else environ !! "HUGGINGFACE_TOKEN".
Proof.
  unfold effective_token, py_or.
  destruct (truthy (token args)) eqn:Ha; [rewrite Ha; reflexivity|].
  destruct (truthy (environ !! "HF_TOKEN")); reflexivity.
Qed.

(** X10. What the download is called with: the repository and the
    destination of the arguments, symlinks unless [--no-symlinks], and
    as token the [--token] value when it is non-empty, else HF_TOKEN
    when that is set and non-empty, else whatever HUGGINGFACE_TOKEN
    holds (possibly nothing). *)
Theorem download_arguments (args : Args) (w w' : world) (r : outcome Z) (log : list event)
    (repo_id : string) (local_dir : path) (use_symlinks : bool) (tok : option string)
    (res : string + exception) :
  main' args w = (r, w', log) ->
  In (SnapshotDownload repo_id local_dir use_symlinks tok res) log ->
  repo_id = repo args /\ local_dir = out args /\
  use_symlinks = negb (no_symlinks args) /\
  tok = (if truthy (token args) then token args
         else if truthy (environ !! "HF_TOKEN") then environ !! "HF_TOKEN"
              else environ !! "HUGGINGFACE_TOKEN").
Proof.
  rewrite <- token_precedence. unfold effective_token.
  run_paths.
  all: intros [= <- <- <-]; cbn [app In].
  all: intros Hin.
  all: repeat (destruct Hin as [Hin|Hin]; [try discriminate Hin|]);
    try (apply in_report_plain in Hin; discriminate Hin); try (exfalso; exact Hin).
  all: injection Hin as <- <- <- <- <-; auto.
Qed.
End Runs.

(** ** The completeness check and the listing *)

Section Files.

Context {Ext : Type}.
Implicit Types (w : world (Ext:=Ext)) (out_dir : path).

Lemma unmet_labels_eq tree out_dir :
  unmet_labels tree out_dir =
  (if has_config tree out_dir then [] else ["config.json"]) ++
  (if has_weights tree out_dir then [] else [weights_label]) ++
  (if has_tokenizer tree out_dir then [] else [tokenizer_label]).
Proof.
  unfold unmet_labels, satisfied, has_config, has_weights, has_tokenizer.
  cbn [existsb required_file_set List.filter map fst snd].
  rewrite !orb_false_r, <- !orb_assoc.
  destruct (path_exists tree (out_dir ++ ["config.json"]));
  destruct (path_exists tree (out_dir ++ ["model.safetensors"])
            || path_exists tree (out_dir ++ ["pytorch_model.bin"]));
  destruct (path_exists tree (out_dir ++ ["tokenizer.json"])
            || (path_exists tree (out_dir ++ ["tokenizer_config.json"])
                || (path_exists tree (out_dir ++ ["sentencepiece.bpe.model"])
                    || path_exists tree (out_dir ++ ["vocab.txt"]))));
  reflexivity.
Qed.

(** C3. [check_required_files] returns the labels of the unmet
    requirements of the required file set, in its order; the list is
    empty exactly when the destination root has config.json, one of the
    two weights files and one of the four tokenizer files; with a
    configuration and weights but no tokenizer file the list is the
    tokenizer label alone. *)
Theorem check_required_files_complete out_dir w :
  fst (check_required_files out_dir w) = (Returned (unmet_labels (fs w) out_dir), w) /\
  (unmet_labels (fs w) out_dir = [] <->
     has_config (fs w) out_dir = true /\
     has_weights (fs w) out_dir = true /\
     has_tokenizer (fs w) out_dir = true) /\
  (has_config (fs w) out_dir = true ->
   has_weights (fs w) out_dir = true ->
   has_tokenizer (fs w) out_dir = false ->
   fst (fst (check_required_files out_dir w)) =
   Returned ["tokenizer.json or tokenizer_config.json or sentencepiece.bpe.model or vocab.txt"]).
Proof.
  rewrite check_required_files_eq, unmet_labels_eq. cbn [fst].
  split; [reflexivity|]. split.
  - destruct (has_config (fs w) out_dir), (has_weights (fs w) out_dir),
      (has_tokenizer (fs w) out_dir); cbn [app]; split;
      try discriminate; try (intros (? & ? & ?); discriminate); auto.
  - intros -> -> ->. reflexivity.
Qed.

(** C6. The modules file is advisory only: the list
    [check_required_files] returns holds nothing but the three
    requirement labels, is the same on any two trees that agree on the
    seven required names (whatever becomes of modules.json), and the
    absence of modules.json shows only as the warning line; a
    destination complete but for modules.json gets the warning and
    still the success message. *)
Theorem modules_file_advisory out_dir w :
  check_required_files out_dir w =
    (Returned (unmet_labels (fs w) out_dir), w,
     if has_modules (fs w) out_dir then [] else [Output stdout MsgModulesWarning]) /\
  (forall m, In m (unmet_labels (fs w) out_dir) ->
     m = "config.json" \/ m = weights_label \/ m = tokenizer_label) /\
  ~ In "modules.json" (unmet_labels (fs w) out_dir) /\
  (forall w2,
     (forall f, In f (concat (map snd required_file_set)) ->
        path_exists (fs w2) (out_dir ++ [f]) = path_exists (fs w) (out_dir ++ [f])) ->
     fst (fst (check_required_files out_dir w2)) = fst (fst (check_required_files out_dir w))) /\
  (has_modules (fs w) out_dir = false ->
   unmet_labels (fs w) out_dir = [] ->
   report out_dir w =
     (Returned 0, w,
      Output stdout MsgModulesWarning :: Output stdout MsgAllFound ::
      summary_lines (fs w) out_dir default_max_files ++ guidance_lines out_dir)).
Proof.
  split; [apply check_required_files_eq|].
  assert (Hlabels : forall m, In m (unmet_labels (fs w) out_dir) ->
            m = "config.json" \/ m = weights_label \/ m = tokenizer_label).
  { intros m. rewrite unmet_labels_eq.
    destruct (has_config (fs w) out_dir), (has_weights (fs w) out_dir),
      (has_tokenizer (fs w) out_dir); cbn [app In]; intuition auto. }
  split; [exact Hlabels|]. split.
  { intros Hin. destruct (Hlabels _ Hin) as [H|[H|H]]; discriminate H. }
  split.
  - intros w2 Hagree. rewrite !check_required_files_eq. cbn [fst]. f_equal.
    unfold unmet_labels, satisfied.
    cbn [existsb required_file_set List.filter map fst snd].
    cbn [concat map snd required_file_set app] in Hagree.
    rewrite !Hagree by (cbn [In]; tauto). reflexivity.
  - intros Hmod Hmet. rewrite report_eq. unfold report_log, modules_lines.
    rewrite Hmod, Hmet. reflexivity.
Qed.

Lemma filter_entries (f : event -> bool) tree out_dir (l : list path) :
  (forall p, f (entry_line tree out_dir p) = true) ->
  List.filter f (map (entry_line tree out_dir) l) = map (entry_line tree out_dir) l.
Proof.
  intros Hf. induction l as [|p l IH]; [reflexivity|].
  cbn [map List.filter]. rewrite Hf, IH. reflexivity.
Qed.

(** The lines of the listing, for the default cap. *)
Lemma summary_lines_cases tree out_dir :
  summary_lines tree out_dir default_max_files =
  Output stdout (MsgSummaryHeader out_dir) ::
  (if (files_below tree out_dir <? 40)%nat
   then map (entry_line tree out_dir) (listing tree out_dir)
   else map (entry_line tree out_dir) (firstn 40 (listing tree out_dir))
        ++ [Output stdout (MsgTruncated 40)]).
Proof.
  unfold summary_lines. rewrite length_listing. reflexivity.
Qed.

(** C7. With more than 40 files below the destination, [print_summary]
    prints the header, the first 40 files of the walk, one entry each,
    and then the truncation notice: 40 entries in all, the notice right
    after the last. *)
Theorem print_summary_truncates out_dir w :
  (40 < files_below (fs w) out_dir)%nat ->
  exists entries,
    print_summary out_dir default_max_files w =
      (Returned tt, w,
       Output stdout (MsgSummaryHeader out_dir) :: entries ++
       [Output stdout (MsgTruncated 40)]) /\
    entries = map (entry_line (fs w) out_dir) (firstn 40 (listing (fs w) out_dir)) /\
    length entries = 40%nat /\
    length (List.filter is_entry (snd (print_summary out_dir default_max_files w))) = 40%nat.
Proof.
  intros Hmany.
  exists (map (entry_line (fs w) out_dir) (firstn 40 (listing (fs w) out_dir))).
  rewrite print_summary_eq. fold (summary_lines (fs w) out_dir default_max_files).
  rewrite summary_lines_cases.
  replace (files_below (fs w) out_dir <? 40)%nat with false
    by (symmetry; apply Nat.ltb_ge; lia).
  assert (Hlen : length (map (entry_line (fs w) out_dir) (firstn 40 (listing (fs w) out_dir)))
                 = 40%nat).
  { rewrite length_map, length_firstn, length_listing. lia. }
  repeat split; [exact Hlen|].
  cbn [snd List.filter is_entry]. rewrite List.filter_app, filter_entries by reflexivity.
  cbn [List.filter is_entry]. rewrite app_nil_r. exact Hlen.
Qed.

(** C10. With exactly 40 files below the destination, [print_summary]
    prints every one of them and the truncation notice all the same; in
    general the notice is printed exactly when there are at least 40
    files, whether or not any is left out. *)
Theorem print_summary_exactly_forty out_dir w :
  ((files_below (fs w) out_dir = 40)%nat ->
   print_summary out_dir default_max_files w =
     (Returned tt, w,
      Output stdout (MsgSummaryHeader out_dir) ::
      map (entry_line (fs w) out_dir) (listing (fs w) out_dir) ++
      [Output stdout (MsgTruncated 40)]) /\
   length (listing (fs w) out_dir) = 40%nat) /\
  (In (Output stdout (MsgTruncated 40)) (snd (print_summary out_dir default_max_files w)) <->
   (40 <= files_below (fs w) out_dir)%nat).
Proof.
  rewrite print_summary_eq. fold (summary_lines (fs w) out_dir default_max_files).
  rewrite summary_lines_cases. split.
  - intros Hforty. rewrite Hforty. cbn [Nat.ltb Nat.leb].
    rewrite firstn_all2 by (rewrite length_listing; lia).
    split; [reflexivity|]. rewrite length_listing. exact Hforty.
  - cbn [snd]. destruct (files_below (fs w) out_dir <? 40)%nat eqn:E.
    + apply Nat.ltb_lt in E. split; [|lia].
      intros [H|H]; [discriminate H|].
      apply in_map_iff in H as (p & Hp & _). discriminate Hp.
    + apply Nat.ltb_ge in E. split; [intros _; exact E|].
      intros _. right. apply in_or_app. right. left. reflexivity.
Qed.

End Files.

(** ** Further properties of the completeness check and the listing *)

Section MoreFiles.

Context {Ext : Type}.
Implicit Types (w : world (Ext:=Ext)) (out_dir : path).

Lemma lookup_path_app (n : node) (p q : path) :
  lookup_path n (p ++ q) =
  match lookup_path n p with
  | Some m => lookup_path m q
  | None => None
  end.
Proof.
  revert n. induction p as [|c p IH]; intros n; [reflexivity|].
  cbn [app lookup_path]. destruct n as [sz| |es]; try reflexivity.
  destruct (assoc c es) as [m|]; [apply IH|reflexivity].
Qed.

Lemma path_exists_below (tree : node) out_dir (es : list (string * node)) (f : string) :
  lookup_path tree out_dir = Some (Dir es) ->
  path_exists tree (out_dir ++ [f]) = entry_present es f.
Proof.
  intros Hdir. unfold path_exists, entry_present.
  rewrite lookup_path_app, Hdir. cbn [lookup_path].
  destruct (assoc f es) as [[sz| |es']|]; reflexivity.
Qed.

Lemma path_exists_not_below (tree : node) out_dir (f : string) :
  (forall es, lookup_path tree out_dir <> Some (Dir es)) ->
  path_exists tree (out_dir ++ [f]) = false.
Proof.
  intros Hnot. unfold path_exists. rewrite lookup_path_app.
  destruct (lookup_path tree out_dir) as [[sz| |es]|]; try reflexivity.
  destruct (Hnot es). reflexivity.
Qed.

(** X12. The completeness check looks at the entries of the destination
    root only, by name: a requirement is met by a file or a directory of
    that name, not by a dangling link and not by anything deeper in the
    tree; the answer is the one the check gives on the root directory
    taken alone. *)
Theorem check_reads_root_entries_only out_dir w (es : list (string * node)) (e : Ext) :
  lookup_path (fs w) out_dir = Some (Dir es) ->
  (forall f, path_exists (fs w) (out_dir ++ [f]) = entry_present es f) /\
  fst (fst (check_required_files out_dir w)) =
  fst (fst (check_required_files [] (World (Dir es) e))).
Proof.
  intros Hdir.
  assert (Hhere : forall f, path_exists (fs w) (out_dir ++ [f]) = entry_present es f)
    by (intros f; apply (path_exists_below _ _ _ _ Hdir)).
  split; [exact Hhere|].
  rewrite !check_required_files_eq. cbn [fst fs]. f_equal.
  unfold unmet_labels, satisfied.
  cbn [existsb required_file_set List.filter map fst snd].
  rewrite !Hhere.
  rewrite !(path_exists_below (Dir es) [] es) by reflexivity.
  reflexivity.
Qed.

(** X13. When the destination is absent, or is not a directory, the check
    does not raise: it reports all three requirements as missing, in
    order, and prints the modules warning. *)
Theorem check_on_missing_destination out_dir w :
  (forall es, lookup_path (fs w) out_dir <> Some (Dir es)) ->
  check_required_files out_dir w =
  (Returned ["config.json"; "model.safetensors or pytorch_model.bin";
             "tokenizer.json or tokenizer_config.json or sentencepiece.bpe.model or vocab.txt"],
   w, [Output stdout MsgModulesWarning]).
Proof.
  intros Hnot. rewrite check_required_files_eq.
  unfold unmet_labels, satisfied, modules_lines, has_modules.
  cbn [existsb required_file_set List.filter map fst snd app].
  rewrite !(path_exists_not_below _ _ _ Hnot). reflexivity.
Qed.


Lemma budget_cap (max_files : Z) : budget max_files 0 = cap max_files.
Proof. unfold budget, cap. f_equal. lia. Qed.

(** X15. For any cap, [print_summary] prints the header, one entry for
    each of the first [max(1, max_files)] files of the walk, and the
    notice exactly when the tree has at least that many files. *)
Theorem print_summary_any_cap out_dir (max_files : Z) w :
  snd (print_summary out_dir max_files w) =
  Output stdout (MsgSummaryHeader out_dir) ::
  map (entry_line (fs w) out_dir) (firstn (cap max_files) (listing (fs w) out_dir)) ++
  (if (cap max_files <=? files_below (fs w) out_dir)%nat
   then [Output stdout (MsgTruncated max_files)] else []).
Proof.
  rewrite print_summary_eq, budget_cap, length_listing. cbn [snd]. f_equal.
  destruct (files_below (fs w) out_dir <? cap max_files)%nat eqn:E.
  - apply Nat.ltb_lt in E.
    replace (cap max_files <=? files_below (fs w) out_dir)%nat with false
      by (symmetry; apply Nat.leb_gt; exact E).
    rewrite firstn_all2 by (rewrite length_listing; lia).
    rewrite app_nil_r. reflexivity.
  - apply Nat.ltb_ge in E.
    replace (cap max_files <=? files_below (fs w) out_dir)%nat with true
      by (symmetry; apply Nat.leb_le; exact E).
    reflexivity.
Qed.

(** X16. A cap of one or less (zero, negative) still prints one entry: on
    a tree with at least one file the output is the header, the first
    file of the walk, and the notice. *)
Theorem print_summary_cap_below_one out_dir (max_files : Z) w (p : path) (rest : list path) :
  max_files <= 1 ->
  listing (fs w) out_dir = p :: rest ->
  snd (print_summary out_dir max_files w) =
  [Output stdout (MsgSummaryHeader out_dir); entry_line (fs w) out_dir p;
   Output stdout (MsgTruncated max_files)].
Proof.
  intros Hcap Hlist. rewrite print_summary_eq, budget_cap.
  replace (cap max_files) with 1%nat by (unfold cap; lia).
  rewrite Hlist. reflexivity.
Qed.

End MoreFiles.

(** ** Further properties of the filesystem operations *)

Section MoreTrees.

Context {Ext : Type}.
Implicit Types (w : world (Ext:=Ext)) (out_dir : path).

Lemma assoc_delete_other {A} (a b : string) (es : list (string * A)) :
  a <> b -> assoc b (delete_entry a es) = assoc b es.
Proof.
  intros Hne. induction es as [|[k v] es IH]; [reflexivity|].
  unfold delete_entry in *. cbn [List.filter fst assoc].
  destruct (String.eqb k a) eqn:Ea; cbn [negb assoc].
  - apply String.eqb_eq in Ea. subst k.
    rewrite (proj2 (String.eqb_neq a b) Hne). exact IH.
  - rewrite IH. reflexivity.
Qed.

Lemma assoc_alter_other {A} (f : A -> A) (a b : string) (es : list (string * A)) :
  a <> b -> assoc b (alter_entry f a es) = assoc b es.
Proof.
  intros Hne. induction es as [|[k v] es IH]; [reflexivity|].
  unfold alter_entry in *. cbn [map fst snd assoc].
  destruct (String.eqb k a) eqn:Ea; cbn [assoc]; rewrite IH; [|reflexivity].
  apply String.eqb_eq in Ea. subst k.
  rewrite (proj2 (String.eqb_neq a b) Hne). reflexivity.
Qed.

Lemma unlink_frame (p q : path) (n : node) :
  diverge p q -> lookup_path (unlink p n) q = lookup_path n q.
Proof.
  intros (r & a & b & p' & q' & Hne & -> & ->). revert n.
  induction r as [|c r IH]; intros n.
  - cbn [app]. destruct n as [sz| |es]; [destruct p'; reflexivity..|].
    destruct p' as [|c' p'']; cbn [unlink lookup_path].
    + rewrite (assoc_delete_other a b es Hne). reflexivity.
    + rewrite (assoc_alter_other _ a b es Hne). reflexivity.
  - cbn [app]. destruct n as [sz| |es].
    + destruct (r ++ a :: p'); reflexivity.
    + destruct (r ++ a :: p'); reflexivity.
    + destruct (r ++ a :: p') as [|c' rest] eqn:E.
      { destruct r; discriminate E. }
      change (unlink (c :: c' :: rest) (Dir es))
        with (Dir (alter_entry (unlink (c' :: rest)) c es)).
      cbn [lookup_path]. rewrite assoc_alter_entry.
      destruct (assoc c es) as [m|]; [|reflexivity].
      cbn [option_map]. apply IH.
Qed.

(** X6. [--force] removes the destination and nothing else: after a
    Destination Preparation that did not raise, every path that parts
    ways with the destination (neither below it nor above it) resolves
    as before, and the world outside the filesystem is untouched. *)
Theorem prepare_destination_frame (args : Args) w (w1 : world (Ext:=Ext)) (l : list event)
    (q : path) :
  prepare_destination args w = (Returned tt, w1, l) ->
  diverge (out args) q ->
  lookup_path (fs w1) q = lookup_path (fs w) q /\ ext w1 = ext w.
Proof.
  intros Hrun Hdiv. revert Hrun.
  unfold prepare_destination, exists_, rmtree.
  unfold bind, read_fs, ret, print, emit.
  destruct (path_exists (fs w) (out args)); [|intros [= <- <-]; split; reflexivity].
  destruct (force args); [|intros [= <- <-]; split; reflexivity].
  destruct (lookup_path (fs w) (out args)) as [[sz| |es]|]; try discriminate.
  destruct (out args) as [|c p] eqn:Hout; [discriminate|].
  pose proof (unlink_frame (c :: p) q (fs w) Hdiv) as Hframe.
  remember (unlink (c :: p) (fs w)) as tree eqn:Htree.
  intros [= <- <-]. split; [exact Hframe|reflexivity].
Qed.








End MoreTrees.

(** ** The theorems at work on concrete machines *)

Lemma run_eta {A B C : Type} (x : A * B * C) : x = (fst (fst x), snd (fst x), snd x).
Proof. destruct x as [[a b] c]. reflexivity. Defined.

Lemma exit_status_policy_witness :
  exit_status (fst (fst (main Fixture.hub_up Fixture.git_fails Fixture.no_environ
                           Fixture.default_args Fixture.fresh))) = 0 /\
  exit_status (fst (fst (main Fixture.hub_down Fixture.git_fails Fixture.no_environ
                           Fixture.secure_args Fixture.populated))) = 2 /\
  exit_status (fst (fst (main Fixture.hub_down Fixture.git_fails Fixture.no_environ
                           Fixture.default_args Fixture.fresh))) = 3.
Proof.
  split; [|split].
  - apply (exit_status_policy _ _ _ _ _ _ _ _ (run_eta _)). vm_compute. reflexivity.
  - apply (exit_status_policy _ _ _ _ _ _ _ _ (run_eta _)); vm_compute; reflexivity.
  - apply (exit_status_policy _ _ _ _ _ _ _ _ (run_eta _)); vm_compute; reflexivity.
Defined.

Lemma fallback_only_after_failure_witness :
  fallback_invoked (snd (main Fixture.hub_up Fixture.git_fails Fixture.no_environ
                           Fixture.default_args Fixture.fresh)) = false /\
  primary_failed (snd (main Fixture.hub_down Fixture.git_without_lfs Fixture.no_environ
                         Fixture.default_args Fixture.fresh)) = true /\
  no_insecure Fixture.default_args = false.
Proof.
  split.
  - apply (fallback_only_after_failure _ _ _ _ _ _ _ _ (run_eta _)). vm_compute. reflexivity.
  - apply (fallback_only_after_failure _ _ _ _ _ _ _ _ (run_eta _)). vm_compute. reflexivity.
Defined.

Lemma completeness_gaps_not_fatal_witness :
  unmet_labels (fs Fixture.populated) Fixture.dest = [tokenizer_label] /\
  fst (fst (main Fixture.hub_down Fixture.git_without_lfs Fixture.no_environ
              Fixture.default_args Fixture.fresh)) = Returned 0.
Proof.
  split; [vm_compute; reflexivity|].
  apply (completeness_gaps_not_fatal _ _ _ _ _ _ _ _ (run_eta _)).
  right. vm_compute. reflexivity.
Defined.

Lemma lfs_failure_not_fatal_witness :
  fst (fst (run_insecure_git_clone Fixture.git_without_lfs Fixture.no_environ
              "nomic-ai/nomic-embed-text-v2-moe" Fixture.dest Fixture.fresh)) = Returned true.
Proof.
  assert (Hok : clone_succeeded
                  (snd (run_insecure_git_clone Fixture.git_without_lfs Fixture.no_environ
                          "nomic-ai/nomic-embed-text-v2-moe" Fixture.dest Fixture.fresh)) = true)
    by (vm_compute; reflexivity).
  destruct (lfs_failure_not_fatal _ _ _ _ _ _ _ _ (run_eta _) Hok) as [Hr _].
  exact Hr.
Defined.

Lemma no_fallback_exit_and_frame_witness :
  exit_status (fst (fst (main Fixture.hub_down Fixture.git_fails Fixture.no_environ
                           Fixture.secure_args Fixture.populated))) = 2 /\
  snd (fst (main Fixture.hub_down Fixture.git_fails Fixture.no_environ
              Fixture.secure_args Fixture.populated)) = Fixture.populated.
Proof.
  assert (Hfail : primary_failed
                    (snd (main Fixture.hub_down Fixture.git_fails Fixture.no_environ
                            Fixture.secure_args Fixture.populated)) = true)
    by (vm_compute; reflexivity).
  pose proof (no_fallback_exit_and_frame _ _ _ _ _ _ _ _ (run_eta _) Hfail eq_refl)
    as (Hexit & _ & _ & Hframe).
  split; [exact Hexit|].
  apply Hframe; reflexivity.
Defined.

Lemma destination_preparation_witness :
  (exists rest,
     snd (main Fixture.hub_up Fixture.git_fails Fixture.no_environ
            Fixture.default_args Fixture.populated) =
     Output stdout (MsgAlreadyExists Fixture.dest) :: rest) /\
  lookup_path (unlink Fixture.dest (fs Fixture.populated)) Fixture.dest = None.
Proof.
  split.
  - destruct (proj1 (destination_preparation Fixture.hub_up Fixture.git_fails
                       Fixture.no_environ Fixture.default_args Fixture.populated
                       _ _ _ (run_eta _) eq_refl) eq_refl)
      as (rest & Hlog & _).
    exists rest. exact Hlog.
  - apply (proj2 (destination_preparation Fixture.hub_up Fixture.git_fails Fixture.no_environ
                    Fixture.forced_args Fixture.populated _ _ _ (run_eta _) eq_refl) eq_refl).
    + eexists. vm_compute. reflexivity.
    + discriminate.
Defined.

Lemma check_required_files_complete_witness :
  fst (fst (check_required_files Fixture.dest Fixture.populated)) =
  Returned ["tokenizer.json or tokenizer_config.json or sentencepiece.bpe.model or vocab.txt"].
Proof.
  apply (check_required_files_complete Fixture.dest Fixture.populated); reflexivity.
Defined.

Lemma modules_file_advisory_witness :
  fst (fst (check_required_files Fixture.dest Fixture.complete_bare)) =
  fst (fst (check_required_files Fixture.dest Fixture.complete)) /\
  In (Output stdout MsgAllFound) (snd (report Fixture.dest Fixture.complete_bare)).
Proof.
  destruct (modules_file_advisory Fixture.dest Fixture.complete) as (_ & _ & _ & Hsame & _).
  destruct (modules_file_advisory Fixture.dest Fixture.complete_bare) as (_ & _ & _ & _ & Hreport).
  split.
  - apply Hsame. intros f Hf. cbn in Hf.
    repeat (destruct Hf as [<-|Hf]; [reflexivity|]). destruct Hf.
  - rewrite Hreport by reflexivity. right. left. reflexivity.
Defined.

Lemma print_summary_truncates_witness :
  length (List.filter is_entry
            (snd (print_summary Fixture.dest default_max_files (Fixture.shards 41)))) = 40%nat.
Proof.
  destruct (print_summary_truncates Fixture.dest (Fixture.shards 41)) as (entries & _ & _ & _ & H).
  - vm_compute. lia.
  - exact H.
Defined.

Lemma print_summary_exactly_forty_witness :
  length (listing (fs (Fixture.shards 40)) Fixture.dest) = 40%nat /\
  In (Output stdout (MsgTruncated 40))
     (snd (print_summary Fixture.dest default_max_files (Fixture.shards 40))).
Proof.
  destruct (print_summary_exactly_forty Fixture.dest (Fixture.shards 40)) as [Hforty Hnotice].
  assert (Hcount : files_below (fs (Fixture.shards 40)) Fixture.dest = 40%nat)
    by (vm_compute; reflexivity).
  split.
  - destruct (Hforty Hcount) as [_ Hlen]. exact Hlen.
  - destruct Hnotice as [_ Hnotice]. apply Hnotice. rewrite Hcount. constructor.
Defined.

(** C4 as stated fails: Primary Fetch fails, the fallback is disabled and
    the process exits with status 2, yet [--force] has removed the
    destination that was there before the run. *)
Lemma force_removes_destination_before_exit :
  primary_failed (snd (main Fixture.hub_down Fixture.git_fails Fixture.no_environ
                         Fixture.forced_secure_args Fixture.populated)) = true /\
  no_insecure Fixture.forced_secure_args = true /\
  exit_status (fst (fst (main Fixture.hub_down Fixture.git_fails Fixture.no_environ
                           Fixture.forced_secure_args Fixture.populated))) = 2 /\
  lookup_path (fs Fixture.populated) Fixture.dest = Some Fixture.partial_model /\
  lookup_path (fs (snd (fst (main Fixture.hub_down Fixture.git_fails Fixture.no_environ
                               Fixture.forced_secure_args Fixture.populated)))) Fixture.dest
  = None.
Proof. vm_compute. repeat split. Qed.

(** C1, at the input where the code leaves the policy table: Primary
    Fetch fails, the fallback is allowed, and the clone step fails
    because there is no [git] to start.  [FileNotFoundError] passes the
    handler of line 101, no "clone failed" line is printed, and the
    process exits with status 1 where the table gives 3. *)
Lemma clone_cannot_start_exit_status :
  primary_failed (snd (main Fixture.hub_down Fixture.no_git Fixture.no_environ
                         Fixture.default_args Fixture.fresh)) = true /\
  no_insecure Fixture.default_args = false /\
  clone_not_started (snd (main Fixture.hub_down Fixture.no_git Fixture.no_environ
                            Fixture.default_args Fixture.fresh)) = true /\
  fst (fst (main Fixture.hub_down Fixture.no_git Fixture.no_environ
              Fixture.default_args Fixture.fresh)) = Raised (Exception FileNotFoundError) /\
  exit_status (fst (fst (main Fixture.hub_down Fixture.no_git Fixture.no_environ
                           Fixture.default_args Fixture.fresh))) = 1 /\
  ~ In (Output stderr MsgCloneAlsoFailed)
       (snd (main Fixture.hub_down Fixture.no_git Fixture.no_environ
               Fixture.default_args Fixture.fresh)).
Proof.
  vm_compute. repeat split.
  intros H. repeat (destruct H as [H|H]; [discriminate H|]). exact H.
Qed.

(** Without [git] on the machine the fallback ends in a traceback. *)
Example no_git_exit_status :
  exit_status (fst (fst (main Fixture.hub_down Fixture.no_git Fixture.no_environ
                           Fixture.default_args Fixture.fresh))) = 1.
Proof. vm_compute. reflexivity. Qed.

(** ** The further properties at work on concrete machines *)

Lemma check_reads_root_entries_only_witness :
  path_exists (fs Fixture.populated) (Fixture.dest ++ ["config.json"]) = true /\
  fst (fst (check_required_files Fixture.dest Fixture.populated)) =
  fst (fst (check_required_files [] (World Fixture.partial_model tt))).
Proof.
  destruct (check_reads_root_entries_only Fixture.dest Fixture.populated
              [("config.json", File 1024); ("model.safetensors", File 1900544)] tt eq_refl)
    as [Hhere Hsame].
  split; [rewrite Hhere; reflexivity|exact Hsame].
Defined.

Lemma check_on_missing_destination_witness :
  fst (fst (check_required_files Fixture.dest Fixture.fresh)) = Returned all_labels.
Proof.
  rewrite (check_on_missing_destination Fixture.dest Fixture.fresh).
  - reflexivity.
  - intros es. vm_compute. discriminate.
Defined.


Lemma print_summary_cap_below_one_witness :
  length (snd (print_summary Fixture.dest 0 (Fixture.shards 3))) = 3%nat.
Proof.
  rewrite (print_summary_cap_below_one Fixture.dest 0 (Fixture.shards 3)
             (Fixture.dest ++ ["shard-0"])
             [Fixture.dest ++ ["shard-1"]; Fixture.dest ++ ["shard-2"]]).
  - reflexivity.
  - lia.
  - vm_compute. reflexivity.
Defined.

Lemma prepare_destination_frame_witness :
  lookup_path
    (fs (snd (fst (prepare_destination Fixture.forced_args Bench.shared))))
    ["srv"; "models"; "bert"; "config.json"] = Some (File 1024).
Proof.
  assert (Hrun : prepare_destination Fixture.forced_args Bench.shared =
                 (Returned tt, snd (fst (prepare_destination Fixture.forced_args Bench.shared)),
                  snd (prepare_destination Fixture.forced_args Bench.shared)))
    by (vm_compute; reflexivity).
  destruct (prepare_destination_frame Fixture.forced_args Bench.shared _ _
              ["srv"; "models"; "bert"; "config.json"] Hrun) as [Hsame _].
  - exists ["srv"; "models"], "nomic", "bert", [], ["config.json"].
    repeat split. discriminate.
  - rewrite Hsame. reflexivity.
Defined.


Lemma main_outcome_characterised_witness :
  fst (fst (main Fixture.hub_down Fixture.git_fails Fixture.no_environ
              Fixture.default_args Fixture.fresh)) = Raised (SystemExit 3).
Proof.
  destruct (main_outcome_characterised Fixture.hub_down Fixture.git_fails Fixture.no_environ
              Fixture.default_args Fixture.fresh _ _ _ (run_eta _)) as (_ & _ & Hthree).
  apply Hthree. vm_compute. reflexivity.
Defined.

Lemma no_retries_witness :
  (count_events is_subprocess
     (snd (main Fixture.hub_down Bench.git_lfs_errors Fixture.no_environ
             Fixture.default_args Fixture.fresh)) <= 3)%nat.
Proof.
  apply (no_retries _ _ _ _ _ _ _ _ (run_eta _)).
Defined.

Lemma primary_success_frame_witness :
  snd (fst (main Fixture.hub_up Fixture.git_fails Fixture.no_environ
              Fixture.default_args Fixture.populated)) = Fixture.complete.
Proof.
  assert (Hok : primary_succeeded
                  (snd (main Fixture.hub_up Fixture.git_fails Fixture.no_environ
                          Fixture.default_args Fixture.populated)) = true)
    by (vm_compute; reflexivity).
  destruct (primary_success_frame _ _ _ _ _ _ _ _ (run_eta _) Hok) as [Hw _].
  rewrite Hw. reflexivity.
Defined.

Lemma force_on_file_aborts_witness :
  exit_status (fst (fst (main Fixture.hub_up Fixture.git_fails Fixture.no_environ
                           Fixture.forced_args Bench.blocked))) = 1.
Proof.
  apply (force_on_file_aborts Fixture.hub_up Fixture.git_fails Fixture.no_environ
           Fixture.forced_args Bench.blocked _ _ _ 12 (run_eta _)); reflexivity.
Defined.

Lemma prepare_destination_idempotent_witness :
  prepare_destination Fixture.forced_args
    (snd (fst (prepare_destination Fixture.forced_args Fixture.populated))) =
  (Returned tt, snd (fst (prepare_destination Fixture.forced_args Fixture.populated)), []).
Proof.
  apply (prepare_destination_idempotent Fixture.forced_args Fixture.populated _
           (snd (prepare_destination Fixture.forced_args Fixture.populated))).
  - vm_compute. reflexivity.
  - reflexivity.
Defined.

Lemma fallback_announces_before_clone_witness :
  exists res rest,
    snd (run_insecure_git_clone Fixture.git_fails Fixture.no_environ
           "nomic-ai/nomic-embed-text-v2-moe" Fixture.dest Fixture.fresh) =
    MkdirParents (parent Fixture.dest) ::
    Output stderr MsgInsecureBanner ::
    Output stderr MsgAbortNow ::
    Output stderr (MsgCommand (clone_cmd "nomic-ai/nomic-embed-text-v2-moe" Fixture.dest)) ::
    SubprocessRun (clone_cmd "nomic-ai/nomic-embed-text-v2-moe" Fixture.dest) None
      (Some (clone_env Fixture.no_environ)) res :: rest.
Proof.
  destruct (fallback_announces_before_clone Fixture.git_fails Fixture.no_environ
              "nomic-ai/nomic-embed-text-v2-moe" Fixture.dest Fixture.fresh _ _ _ (run_eta _))
    as (res & rest & Hlog & _).
  - vm_compute. reflexivity.
  - exists res, rest. exact Hlog.
Defined.

Lemma fallback_process_environment_witness :
  clone_env Bench.token_environ !! "HF_TOKEN" = Some "hf_from_environment".
Proof.
  destruct (fallback_process_environment Fixture.git_fails Bench.token_environ
              "nomic-ai/nomic-embed-text-v2-moe" Fixture.dest Fixture.fresh _ _ _ (run_eta _))
    as (_ & Hkeep & _).
  rewrite Hkeep by discriminate. reflexivity.
Defined.

Lemma lfs_pull_follows_install_witness :
  existsb is_lfs_pull
    (snd (run_insecure_git_clone Fixture.git_without_lfs Fixture.no_environ
            "nomic-ai/nomic-embed-text-v2-moe" Fixture.dest Fixture.fresh)) = false /\
  existsb is_lfs_pull
    (snd (run_insecure_git_clone Bench.git_lfs_errors Fixture.no_environ
            "nomic-ai/nomic-embed-text-v2-moe" Fixture.dest Fixture.fresh)) = true.
Proof.
  split.
  - apply (lfs_pull_follows_install _ _ _ _ _ _ _ _ (run_eta _)). vm_compute. reflexivity.
  - apply (lfs_pull_follows_install _ _ _ _ _ _ _ _ (run_eta _)). vm_compute. reflexivity.
Defined.

Lemma download_arguments_witness :
  false = negb (no_symlinks Bench.empty_token_args) /\
  Some "hf_from_environment" =
  (if truthy (token Bench.empty_token_args) then token Bench.empty_token_args
   else if truthy (Bench.token_environ !! "HF_TOKEN") then Bench.token_environ !! "HF_TOKEN"
        else Bench.token_environ !! "HUGGINGFACE_TOKEN").
Proof.
  assert (Hin : In (SnapshotDownload "nomic-ai/nomic-embed-text-v2-moe" Fixture.dest false
                      (Some "hf_from_environment") (inl "/srv/models/nomic"))
                   (snd (main Fixture.hub_up Fixture.git_fails Bench.token_environ
                           Bench.empty_token_args Fixture.fresh)))
    by (vm_compute; right; left; reflexivity).
  destruct (download_arguments _ _ _ _ _ _ _ _ _ _ _ _ _ (run_eta _) Hin)
    as (_ & _ & Hsym & Htok).
  split; [exact Hsym|exact Htok].
Defined.

Lemma clone_not_started_escapes_witness :
  exit_status (fst (fst (main Fixture.hub_down Fixture.no_git Fixture.no_environ
                           Fixture.default_args Fixture.fresh))) = 1.
Proof.
  apply (clone_not_started_escapes _ _ _ _ _ _ _ _ (run_eta _)). vm_compute. reflexivity.
Defined.
